(** * InsuraX fraud-ring detection: a shallow embedding of
      [fraud_ring_detection.py] and the properties of its detectors.

    The Python class [FraudRingDetector] drives a Neo4j session. The
    embedding has three layers:

    - Python values and operators ([value], [py_add], [py_gt], [py_or]),
      with exceptions as the [Raise] outcome of the [res] monad;
    - the property graph behind the session ([database]): nodes carry a
      label and a property map, relationships a type and two node
      identities; each Cypher statement of the source is a list
      comprehension over it, with Cypher's three-valued comparisons
      ([cy_eq], [cy_gt]) and null-propagating arithmetic ([cy_add]);
    - the methods of the class, under their source names.

    Conventions.
    - Numbers (Python and Cypher floats and integers alike) are exact
      rationals, and every arithmetic step returns its result in lowest
      terms. Cypher divides two integers as integers; the only division of
      the source, the average fraudScore, is therefore modelled for scores
      that are floats or absent, as the design requires of them.
    - Cypher leaves the order of rows open unless ORDER BY is given. The
      comprehensions return rows in the order of the relationship list, and
      groups in order of first appearance.
    - Neo4j's temporal functions and Python's formatting of numbers and of
      the clock are parameters ([Section] variables).
    - The functions take the database of a connected session; without a
      session ([self.session] is [None]) every method of the source that
      runs a query raises at once. *)

From stdpp Require Import gmap strings list fin_maps sorting pretty.
From Stdlib Require Import QArith Qminmax Lia Ascii.

Local Open Scope string_scope.

(** ** Values and exceptions *)

(** A value a Firestore document, a Cypher expression or a driver record may
    hold: Python [None] / Cypher [null], a string, or a number. *)
Inductive value : Type :=
  | VNull
  | VStr (s : string)
  | VNum (q : Q).

#[global] Instance Q_eq_dec : EqDecision Q.
Proof. solve_decision. Defined.

#[global] Instance value_eq_dec : EqDecision value.
Proof. solve_decision. Defined.

#[global] Instance value_inhabited : Inhabited value := populate VNull.

(** How a run can stop early. [Unmodelled] marks the one Cypher behaviour the
    embedding leaves out: [+] with a string operand (concatenation after an
    implicit number-to-string conversion). *)
Inductive error : Type :=
  | TypeError
  | KeyError
  | ZeroDivisionError
  | ConstraintError
  | TemporalError
  | Unmodelled.

Inductive res (A : Type) : Type :=
  | Ok (a : A)
  | Raise (e : error).
Arguments Ok {A} a.
Arguments Raise {A} e.

#[global] Instance res_ret : MRet res := @Ok.
#[global] Instance res_bind : MBind res := λ A B f m,
  match m with
  | Ok a => f a
  | Raise e => Raise e
  end.

(** ** Rational arithmetic in lowest terms *)

Definition Qltb (a b : Q) : bool := negb (Qle_bool b a).
Definition qadd (a b : Q) : Q := Qred (a + b).
Definition qmul (a b : Q) : Q := Qred (a * b).
Definition qdiv (a b : Q) : Q := Qred (a / b).
Definition qnat (n : nat) : Q := inject_Z (Z.of_nat n).

(** ** Python operators *)

(** [a + b] *)
Definition py_add (a b : value) : res value :=
  match a, b with
  | VNum x, VNum y => Ok (VNum (qadd x y))
  | VStr x, VStr y => Ok (VStr (x ++ y))
  | _, _ => Raise TypeError
  end.

(** [a > b] *)
Definition py_gt (a b : value) : res bool :=
  match a, b with
  | VNum x, VNum y => Ok (Qltb y x)
  | VStr x, VStr y => Ok (String.ltb y x)
  | _, _ => Raise TypeError
  end.

(** [a < b] *)
Definition py_lt (a b : value) : res bool := py_gt b a.

(** [a / b], true division. *)
Definition py_truediv (a b : value) : res value :=
  match a, b with
  | VNum x, VNum y =>
      if Qeq_bool y 0 then Raise ZeroDivisionError else Ok (VNum (qdiv x y))
  | _, _ => Raise TypeError
  end.

(** Truth value of an object: [None], [''] and [0] are false. *)
Definition py_truthy (a : value) : bool :=
  match a with
  | VNull => false
  | VStr s => negb (String.eqb s "")
  | VNum q => negb (Qeq_bool q 0)
  end.

(** [a or b] *)
Definition py_or (a b : value) : value := if py_truthy a then a else b.

(** [min(a, b)] on numbers: the first argument unless the second is smaller. *)
Definition py_min (a b : Q) : Q := if Qltb b a then b else a.

(** ** Driver records *)

(** A [neo4j.Record]: the RETURN columns in order, each with its value. *)
Definition record : Type := list (string * value).

Fixpoint record_find (r : record) (k : string) : option value :=
  match r with
  | [] => None
  | (k', v) :: r' => if String.eqb k' k then Some v else record_find r' k
  end.

(** [record.get(k, d)] *)
Definition record_get (r : record) (k : string) (d : value) : value :=
  default d (record_find r k).

(** [record[k]]; a column the query does not return is a [KeyError]. *)
Definition record_item (r : record) (k : string) : res value :=
  match record_find r k with
  | Some v => Ok v
  | None => Raise KeyError
  end.

(** ** The network risk score *)

(** [_calculate_network_risk_score] *)
Definition _calculate_network_risk_score (record : record) : res Q :=
  let base_score := 0.3%Q in
  claims_count ← py_add (record_get record "claims_count1" (VNum 0))
                        (record_get record "claims_count2" (VNum 0));
  gt5 ← py_gt claims_count (VNum 5);
  base_score ←
    (if gt5 : bool then Ok (qadd base_score 0.3)
     else
       gt2 ← py_gt claims_count (VNum 2);
       Ok (if gt2 : bool then qadd base_score 0.2 else base_score));
  total_amount ← py_add (record_get record "total_amount1" (VNum 0))
                        (record_get record "total_amount2" (VNum 0));
  gt10lakh ← py_gt total_amount (VNum 1000000);
  base_score ←
    (if gt10lakh : bool then Ok (qadd base_score 0.3)
     else
       gt5lakh ← py_gt total_amount (VNum 500000);
       Ok (if gt5lakh : bool then qadd base_score 0.2 else base_score));
  Ok (py_min base_score 1).

(** The risk-score formula as the design states it: base 0.3, a bonus for the
    combined claim count, a bonus for the combined claim total, clamped to
    the unit interval. *)
Definition clamp01 (x : Q) : Q := Qmax 0 (Qmin x 1).

Definition count_bonus (count : Q) : Q :=
  if Qltb 5 count then 0.3%Q else if Qltb 2 count then 0.2%Q else 0%Q.

Definition amount_bonus (amount : Q) : Q :=
  if Qltb 1000000 amount then 0.3%Q
  else if Qltb 500000 amount then 0.2%Q else 0%Q.

Definition spec_network_risk (count amount : Q) : Q :=
  clamp01 (0.3 + count_bonus count + amount_bonus amount)%Q.

(** ** The property graph *)

Inductive label : Type := User | Policy | Claim.
Inductive rel_type : Type := OWNS | HAS_CLAIM | FILED.

#[global] Instance label_eq_dec : EqDecision label.
Proof. solve_decision. Defined.
#[global] Instance rel_type_eq_dec : EqDecision rel_type.
Proof. solve_decision. Defined.

(** A node: its label and the properties that are set on it. Neo4j stores no
    null: a property written as null is absent. *)
Record node : Type := Node {
  node_label : label;
  node_props : gmap string value
}.

(** A relationship between two nodes, named by their identities. *)
Record relationship : Type := Rel {
  rel_kind : rel_type;
  rel_start : nat;
  rel_end : nat
}.

#[global] Instance relationship_eq_dec : EqDecision relationship.
Proof. solve_decision. Defined.

(** The database behind [self.session]. The identity of a node is its
    position in [nodes]: nodes are only ever appended, or deleted all at
    once. [constraints] lists the labels whose key property is under a
    uniqueness constraint. *)
Record database : Type := Database {
  nodes : list node;
  rels : list relationship;
  constraints : list label
}.

(** The key property of each label ([create_schema]). *)
Definition unique_key (l : label) : string :=
  match l with
  | User => "userId"
  | Policy => "policyId"
  | Claim => "claimId"
  end.

(** ** Cypher expressions *)

(** [n.k]: the property, or null when the node does not have it. *)
Definition node_prop (n : node) (k : string) : value :=
  default VNull (node_props n !! k).

Definition prop (db : database) (i : nat) (k : string) : value :=
  from_option (λ n, node_prop n k) VNull (nodes db !! i).

Definition has_label (db : database) (i : nat) (l : label) : bool :=
  from_option (λ n, bool_decide (node_label n = l)) false (nodes db !! i).

(** Comparisons are three-valued: [None] is Cypher's null. *)
Definition cy_eq (a b : value) : option bool :=
  match a, b with
  | VNull, _ | _, VNull => None
  | VStr x, VStr y => Some (String.eqb x y)
  | VNum x, VNum y => Some (Qeq_bool x y)
  | _, _ => Some false
  end.

Definition cy_neq (a b : value) : option bool := negb <$> cy_eq a b.

Definition cy_gt (a b : value) : option bool :=
  match a, b with
  | VNum x, VNum y => Some (Qltb y x)
  | VStr x, VStr y => Some (String.ltb y x)
  | _, _ => None
  end.

Definition cy_and (p q : option bool) : option bool :=
  match p, q with
  | Some false, _ | _, Some false => Some false
  | Some true, Some true => Some true
  | _, _ => None
  end.

(** A WHERE clause keeps a row only when its predicate is true. *)
Definition cy_holds (p : option bool) : bool :=
  match p with
  | Some true => true
  | _ => false
  end.

(** [a + b] on numbers and null. *)
Definition cy_add (a b : value) : res value :=
  match a, b with
  | VNull, _ | _, VNull => Ok VNull
  | VNum x, VNum y => Ok (VNum (qadd x y))
  | _, _ => Raise Unmodelled
  end.

(** [a / size(l)] *)
Definition cy_div_size (a : value) (n : nat) : res value :=
  match a with
  | VNull => Ok VNull
  | VNum x => if n is O then Raise ZeroDivisionError
              else Ok (VNum (qdiv x (qnat n)))
  | VStr _ => Raise TypeError
  end.

(** [reduce(total = 0, claim in claims | total + claim.k)] *)
Fixpoint cy_sum_from (db : database) (k : string) (total : value)
    (claims : list nat) : res value :=
  match claims with
  | [] => Ok total
  | claim :: claims' =>
      total' ← cy_add total (prop db claim k);
      cy_sum_from db k total' claims'
  end.

Definition cy_sum (db : database) (k : string) (claims : list nat) : res value :=
  cy_sum_from db k (VNum 0) claims.

(** [size(l)] as a value. *)
Definition cy_size {A} (l : list A) : value := VNum (qnat (length l)).

(** ** Cypher patterns *)

(** [MATCH (a:la)-[:t]->(b:lb)]: one row per relationship of type [t] whose
    end points exist and carry the labels. *)
Definition match_rel (db : database) (la : label) (t : rel_type) (lb : label)
    : list (nat * nat) :=
  r ← rels db;
  if bool_decide (rel_kind r = t)
     && has_label db (rel_start r) la && has_label db (rel_end r) lb
  then [(rel_start r, rel_end r)] else [].

(** [MATCH (x:l {k: $v})]: the nodes of label [l] whose property equals the
    parameter. *)
Definition match_node (db : database) (l : label) (k : string) (v : value)
    : list nat :=
  filter (λ i, has_label db i l && cy_holds (cy_eq (prop db i k) v))
         (seq 0 (length (nodes db))).

(** Grouping by the non-aggregated columns of a WITH or RETURN: one group per
    distinct key, in order of first appearance, with the rows that carry it. *)
Definition group_by {K A} `{EqDecision K} (key : A → K) (rows : list A)
    : list (K * list A) :=
  (λ k, (k, filter (λ r, key r = k) rows)) <$> remove_dups (key <$> rows).

(** ** Python dictionaries *)

(** A Firestore document: field name to value. *)
Abbreviation dict := (gmap string value).

(** [d.get(k, default)] *)
Definition dict_get (d : dict) (k : string) (default_ : value) : value :=
  default default_ (d !! k).

(** ** Schema and loading *)

(** Whether some node of label [l] already has the key [v]. *)
Definition key_taken (db : database) (l : label) (v : value) : bool :=
  bool_decide (match_node db l (unique_key l) v ≠ []).

(** Whether the nodes of label [l] among [ids] have pairwise different
    keys, so that the uniqueness constraint of [l] can be created. *)
Fixpoint keys_unique (db : database) (l : label) (ids : list nat) : bool :=
  match ids with
  | [] => true
  | i :: ids' =>
      (negb (has_label db i l)
       || forallb (λ j, negb (has_label db j l
                              && cy_holds (cy_eq (prop db i (unique_key l))
                                                 (prop db j (unique_key l)))))
                  ids')
      && keys_unique db l ids'
  end.

(** One [CREATE CONSTRAINT ... IF NOT EXISTS]: it fails when the data already
    break it; [create_schema] logs the failure and goes on. *)
Definition create_constraint (l : label) (db : database) : database :=
  if bool_decide (l ∈ constraints db) then db
  else if keys_unique db l (seq 0 (length (nodes db)))
       then Database (nodes db) (rels db) (l :: constraints db)
       else db.

(** [create_schema]; the indexes do not change what a query returns. *)
Definition create_schema (db : database) : database :=
  create_constraint Claim (create_constraint Policy (create_constraint User db)).

(** A [CREATE (x:l {...})] with the given parameters. *)
Definition stored (params : list (string * value)) : gmap string value :=
  list_to_map (filter (λ kv, kv.2 ≠ VNull) params).

Definition create_node (l : label) (params : list (string * value))
    (db : database) : res database :=
  let n := Node l (stored params) in
  if bool_decide (l ∈ constraints db)
     && key_taken db l (node_prop n (unique_key l))
  then Raise ConstraintError
  else Ok (Database (nodes db ++ [n]) (rels db) (constraints db)).

(** [MATCH (n) DETACH DELETE n] *)
Definition detach_delete_all (db : database) : database :=
  Database [] [] (constraints db).

(** [MATCH (a:la {ka: $va}) MATCH (b:lb {kb: $vb}) CREATE (a)-[:t]->(b)] *)
Definition create_rel (la : label) (ka : string) (va : value) (t : rel_type)
    (lb : label) (kb : string) (vb : value) (db : database) : database :=
  let new := a ← match_node db la ka va;
             b ← match_node db lb kb vb;
             [Rel t a b] in
  Database (nodes db) (rels db ++ new) (constraints db).

Section Loader.
(** [now t] is what [datetime.now().isoformat()] returns at the creation of
    the [t]-th user node of a load. *)
Variable now : nat → string.

(** The parameters [_create_user_node] binds. *)
Definition user_params (t : nat) (user : dict) : list (string * value) :=
  [("userId", dict_get user "uid" (dict_get user "id" (VStr "")));
   ("email", dict_get user "email" (VStr ""));
   ("phone", dict_get user "phone" (VStr ""));
   ("displayName", dict_get user "displayName" (VStr ""));
   ("insured_sex", dict_get user "insured_sex" (VStr ""));
   ("insured_age", dict_get user "insured_age" (VNum 0));
   ("insured_occupation", dict_get user "insured_occupation" (VStr ""));
   ("address", dict_get user "address" (VStr ""));
   ("createdAt", VStr (now t))].

(** [_create_user_node] *)
Definition _create_user_node (t : nat) (user : dict) : database → res database :=
  create_node User (user_params t user).

(** The parameters [_create_policy_node] binds. *)
Definition policy_params (policy : dict) : list (string * value) :=
  [("policyId", dict_get policy "policyId" (VStr ""));
   ("policyName", dict_get policy "policyName" (VStr ""));
   ("insurance_type", dict_get policy "insurance_type" (VStr ""));
   ("policy_term", dict_get policy "policy_term" (VStr ""));
   ("policy_start_date", dict_get policy "policy_start_date" (VStr ""));
   ("policy_end_date", dict_get policy "policy_end_date" (VStr ""));
   ("policy_annual_premium", dict_get policy "policy_annual_premium" (VNum 0));
   ("sum_insured", dict_get policy "sum_insured" (VNum 0));
   ("policy_state", dict_get policy "policy_state" (VStr ""));
   ("policy_city", dict_get policy "policy_city" (VStr ""));
   ("holderName", dict_get policy "holderName" (VStr ""));
   ("userId", dict_get policy "userId" (VStr ""))].

(** [_create_policy_node] *)
Definition _create_policy_node (policy : dict) : database → res database :=
  create_node Policy (policy_params policy).

(** The parameters [_create_claim_node] binds. *)
Definition claim_params (claim : dict) : list (string * value) :=
  [("claimId", dict_get claim "claimId" (VStr ""));
   ("policyId", dict_get claim "policyId" (VStr ""));
   ("claimType", dict_get claim "claimType" (VStr ""));
   ("claimAmount", dict_get claim "claimAmount" (VNum 0));
   ("status", dict_get claim "status" (VStr ""));
   ("submittedDate", dict_get claim "submittedDate" (VStr ""));
   ("incidentDate", dict_get claim "incidentDate" (VStr ""));
   ("description", dict_get claim "description" (VStr ""));
   ("insurance_type", dict_get claim "insurance_type" (VStr ""));
   ("incident_time", dict_get claim "incident_time" (VStr ""));
   ("accident_location", dict_get claim "accident_location" (VStr ""));
   ("hospital_name", dict_get claim "hospital_name" (VStr ""));
   ("auto_make", dict_get claim "auto_make" (VStr ""));
   ("auto_model", dict_get claim "auto_model" (VStr ""));
   ("auto_year", dict_get claim "auto_year" (VNum 0));
   ("userId", dict_get claim "userId" (VStr ""));
   ("fraudScore", dict_get claim "fraudScore" (VNum 0));
   ("riskLevel", dict_get claim "riskLevel" (VStr ""))].

(** [_create_claim_node] *)
Definition _create_claim_node (claim : dict) : database → res database :=
  create_node Claim (claim_params claim).

(** [_create_relationships]: three loops, none of which can fail; a MATCH
    that finds no node creates nothing. *)
Definition _create_relationships (users_data policies_data claims_data : list dict)
    (db : database) : database :=
  let db1 :=
    foldl (λ db policy,
             create_rel User "userId" (dict_get policy "userId" (VStr ""))
                        OWNS
                        Policy "policyId" (dict_get policy "policyId" (VStr ""))
                        db)
          db policies_data in
  let db2 :=
    foldl (λ db claim,
             create_rel Policy "policyId" (dict_get claim "policyId" (VStr ""))
                        HAS_CLAIM
                        Claim "claimId" (dict_get claim "claimId" (VStr ""))
                        db)
          db1 claims_data in
  foldl (λ db claim,
           create_rel User "userId" (dict_get claim "userId" (VStr ""))
                      FILED
                      Claim "claimId" (dict_get claim "claimId" (VStr ""))
                      db)
        db2 claims_data.

(** The three node loops of [load_data_from_firestore]: the first failing
    CREATE is logged and re-raised. *)
Fixpoint create_user_nodes (t : nat) (users_data : list dict) (db : database)
    : res database :=
  match users_data with
  | [] => Ok db
  | user :: rest =>
      db' ← _create_user_node t user db;
      create_user_nodes (S t) rest db'
  end.

Fixpoint create_nodes (create : dict → database → res database)
    (data : list dict) (db : database) : res database :=
  match data with
  | [] => Ok db
  | d :: rest => db' ← create d db; create_nodes create rest db'
  end.

(** [load_data_from_firestore]; the two closing debug queries only read. *)
Definition load_data_from_firestore (users_data policies_data claims_data : list dict)
    (db : database) : res database :=
  let db := detach_delete_all db in
  db ← create_user_nodes 0 users_data db;
  db ← create_nodes _create_policy_node policies_data db;
  db ← create_nodes _create_claim_node claims_data db;
  Ok (_create_relationships users_data policies_data claims_data db).
End Loader.

(** ** Suspicious networks *)

(** One detected network: the dict the detectors build. *)
Record network : Type := Network {
  net_type : string;
  users : list value;
  user_names : list value;
  user_emails : list value;
  shared_attribute : value;
  risk_score : Q;
  details : list (string * value)
}.

(** Python equality of values, and of tuples of values. *)
Definition py_eq (a b : value) : bool :=
  match a, b with
  | VNull, VNull => true
  | VStr x, VStr y => String.eqb x y
  | VNum x, VNum y => Qeq_bool x y
  | _, _ => false
  end.

Fixpoint py_tuple_eq (k1 k2 : list value) : bool :=
  match k1, k2 with
  | [], [] => true
  | a :: k1', b :: k2' => py_eq a b && py_tuple_eq k1' k2'
  | _, _ => false
  end.

(** [sorted(l)]: a stable insertion sort that only asks [x < y]; on the
    two-element lists the detectors build it makes exactly the comparison
    Python makes. *)
Fixpoint py_insort (x : value) (s : list value) : res (list value) :=
  match s with
  | [] => Ok [x]
  | y :: s' =>
      lt ← py_lt x y;
      if lt : bool then Ok (x :: y :: s')
      else s'' ← py_insort x s'; Ok (y :: s'')
  end.

Definition py_sorted (l : list value) : res (list value) :=
  foldl (λ acc x, s ← acc; py_insort x s) (Ok []) l.

(** The loop of [_remove_duplicate_networks], with its two accumulators. *)
Fixpoint remove_duplicates_loop (seen : list (list value))
    (unique_networks : list network) (networks : list network)
    : res (list network) :=
  match networks with
  | [] => Ok unique_networks
  | network :: rest =>
      user_key ← py_sorted (users network);
      if existsb (py_tuple_eq user_key) seen
      then remove_duplicates_loop seen unique_networks rest
      else remove_duplicates_loop (user_key :: seen)
                                  (unique_networks ++ [network])%list rest
  end.

(** [_remove_duplicate_networks] *)
Definition _remove_duplicate_networks (networks : list network)
    : res (list network) :=
  remove_duplicates_loop [] [] networks.

Section Detectors.
(** [num_repr q] is the text Python's string formatting gives a number. *)
Variable num_repr : Q → string.

(** [str(v)] inside an f-string. *)
Definition py_str (v : value) : string :=
  match v with
  | VNull => "None"
  | VStr s => s
  | VNum q => num_repr q
  end.

(** The pattern [(u:User)-[:OWNS]->(p:Policy)-[:HAS_CLAIM]->(c:Claim)]. *)
Definition owns_has_claim (db : database) : list (nat * nat * nat) :=
  '(u, p) ← match_rel db User OWNS Policy;
  '(p', c) ← match_rel db Policy HAS_CLAIM Claim;
  if bool_decide (p' = p) then [(u, p, c)] else [].

(** The rows of the phone query after its first WHERE. *)
Definition phone_rows (db : database) : list (nat * nat * nat * nat) :=
  '(u1, p1, c1) ← owns_has_claim db;
  '(u2, p2, c2) ← owns_has_claim db;
  if cy_holds
       (cy_and (cy_and (cy_eq (prop db u1 "phone") (prop db u2 "phone"))
                       (cy_neq (prop db u1 "userId") (prop db u2 "userId")))
               (cy_neq (prop db u1 "phone") (VStr "")))
  then [(u1, u2, c1, c2)] else [].

(** The RETURN clause of the phone query. *)
Definition phone_record (db : database) (u1 u2 : nat) (claims1 claims2 : list nat)
    (total_amount1 total_amount2 : value) : record :=
  [("user1", prop db u1 "userId");
   ("name1", prop db u1 "displayName");
   ("email1", prop db u1 "email");
   ("user2", prop db u2 "userId");
   ("name2", prop db u2 "displayName");
   ("email2", prop db u2 "email");
   ("phone", prop db u1 "phone");
   ("claims_count1", cy_size claims1);
   ("claims_count2", cy_size claims2);
   ("total_amount1", total_amount1);
   ("total_amount2", total_amount2)].

(** The groups of the phone query: rows grouped by [(u1, u2)], the distinct
    claims of each side collected, and the last WHERE applied. *)
Definition phone_groups (db : database) : list (nat * nat * list nat * list nat) :=
filter (λ '(_, claims1, claims2), 0 < length claims1 ∧ 0 < length claims2)%nat
  ((λ '(k, rows),
      (k, remove_dups ((λ '(_, _, c1, _), c1) <$> rows),
          remove_dups ((λ '(_, _, _, c2), c2) <$> rows)))
   <$> group_by (λ '(u1, u2, _, _), (u1, u2)) (phone_rows db)).

(** The record RETURN makes of one group. *)
Definition phone_group_record (db : database)
    (group : nat * nat * list nat * list nat) : res record :=
let '(u1, u2, claims1, claims2) := group in
total_amount1 ← cy_sum db "claimAmount" claims1;
total_amount2 ← cy_sum db "claimAmount" claims2;
Ok (phone_record db u1 u2 claims1 claims2 total_amount1 total_amount2).

(** The query of [_detect_phone_networks]. *)
Definition phone_query (db : database) : res (list record) :=
mapM (phone_group_record db) (phone_groups db).

(** The body of the loop of [_detect_phone_networks]. *)
Definition phone_network (record : record) : res network :=
  user1 ← record_item record "user1";
  user2 ← record_item record "user2";
  name1 ← record_item record "name1";
  name2 ← record_item record "name2";
  email1 ← record_item record "email1";
  email2 ← record_item record "email2";
  phone ← record_item record "phone";
  risk ← _calculate_network_risk_score record;
  claims_count1 ← record_item record "claims_count1";
  claims_count2 ← record_item record "claims_count2";
  total_amount1 ← record_item record "total_amount1";
  total_amount2 ← record_item record "total_amount2";
  Ok {| net_type := "phone_network";
        users := [user1; user2];
        user_names := [py_or name1 (VStr "Unknown"); py_or name2 (VStr "Unknown")];
        user_emails := [py_or email1 (VStr "No email"); py_or email2 (VStr "No email")];
        shared_attribute := phone;
        risk_score := risk;
        details := [("phone", phone);
                    ("claims_count1", claims_count1);
                    ("claims_count2", claims_count2);
                    ("total_amount1", total_amount1);
                    ("total_amount2", total_amount2)] |}.

(** [_detect_phone_networks] *)
Definition _detect_phone_networks (db : database) : res (list network) :=
  result ← phone_query db;
  mapM phone_network result.

(** The rows of the policy query: pairs of owned policies that pass the
    WHERE, each joined with a claim of either policy. *)
Definition policy_rows (db : database) : list (nat * nat * nat * nat * nat * nat) :=
  '(u1, p1) ← match_rel db User OWNS Policy;
  '(u2, p2) ← match_rel db User OWNS Policy;
  if cy_holds
       (cy_and
          (cy_and
             (cy_and
                (cy_and (cy_neq (prop db u1 "userId") (prop db u2 "userId"))
                        (cy_eq (prop db p1 "insurance_type")
                               (prop db p2 "insurance_type")))
                (cy_eq (prop db p1 "policy_annual_premium")
                       (prop db p2 "policy_annual_premium")))
             (cy_eq (prop db p1 "sum_insured") (prop db p2 "sum_insured")))
          (cy_gt (prop db p1 "policy_annual_premium") (VNum 0)))
  then
    '(p1', c1) ← match_rel db Policy HAS_CLAIM Claim;
    if bool_decide (p1' = p1) then
      '(p2', c2) ← match_rel db Policy HAS_CLAIM Claim;
      if bool_decide (p2' = p2) then [(u1, u2, p1, p2, c1, c2)] else []
    else []
  else [].

(** The RETURN clause of the policy query; it has no amount column. *)
Definition policy_record (db : database) (u1 u2 p1 p2 : nat)
    (claims1 claims2 : list nat) : record :=
  [("user1", prop db u1 "userId");
   ("user2", prop db u2 "userId");
   ("name1", prop db u1 "name");
   ("name2", prop db u2 "name");
   ("email1", prop db u1 "email");
   ("email2", prop db u2 "email");
   ("policy1", prop db p1 "policyId");
   ("policy2", prop db p2 "policyId");
   ("insurance_type", prop db p1 "insurance_type");
   ("premium", prop db p1 "policy_annual_premium");
   ("sum_insured", prop db p1 "sum_insured");
   ("claims_count1", cy_size claims1);
   ("claims_count2", cy_size claims2)].

(** The groups of the policy query: rows grouped by [(u1, u2, p1, p2)], the
    distinct claims of each side collected, and the last WHERE applied. *)
Definition policy_groups (db : database)
    : list (nat * nat * nat * nat * list nat * list nat) :=
  filter (λ '(_, claims1, claims2), 0 < length claims1 ∧ 0 < length claims2)%nat
    ((λ '(k, rows),
        (k, remove_dups ((λ '(_, _, _, _, c1, _), c1) <$> rows),
            remove_dups ((λ '(_, _, _, _, _, c2), c2) <$> rows)))
     <$> group_by (λ '(u1, u2, p1, p2, _, _), (u1, u2, p1, p2)) (policy_rows db)).

(** The query of [_detect_policy_networks]. *)
Definition policy_query (db : database) : list record :=
  (λ '(u1, u2, p1, p2, claims1, claims2),
     policy_record db u1 u2 p1 p2 claims1 claims2) <$> policy_groups db.

(** The body of the loop of [_detect_policy_networks]. *)
Definition policy_network (record : record) : res network :=
  user1 ← record_item record "user1";
  user2 ← record_item record "user2";
  name1 ← record_item record "name1";
  name2 ← record_item record "name2";
  email1 ← record_item record "email1";
  email2 ← record_item record "email2";
  insurance_type ← record_item record "insurance_type";
  risk ← _calculate_network_risk_score record;
  policy1 ← record_item record "policy1";
  policy2 ← record_item record "policy2";
  premium ← record_item record "premium";
  sum_insured ← record_item record "sum_insured";
  claims_count1 ← record_item record "claims_count1";
  claims_count2 ← record_item record "claims_count2";
  Ok {| net_type := "policy_network";
        users := [user1; user2];
        user_names := [py_or name1 (VStr "Unknown"); py_or name2 (VStr "Unknown")];
        user_emails := [py_or email1 (VStr "No email"); py_or email2 (VStr "No email")];
        shared_attribute :=
          VStr ("Same " ++ py_str insurance_type ++ " policy details");
        risk_score := risk;
        details := [("policy1", policy1);
                    ("policy2", policy2);
                    ("insurance_type", insurance_type);
                    ("premium", premium);
                    ("sum_insured", sum_insured);
                    ("claims_count1", claims_count1);
                    ("claims_count2", claims_count2)] |}.

(** [_detect_policy_networks] *)
Definition _detect_policy_networks (db : database) : res (list network) :=
  mapM policy_network (policy_query db).

(** The rows of the claim query. *)
Definition claim_rows (db : database) : list (nat * nat * nat * nat * nat * nat) :=
  '(u1, c1) ← match_rel db User FILED Claim;
  '(u2, c2) ← match_rel db User FILED Claim;
  if cy_holds
       (cy_and
          (cy_and
             (cy_and
                (cy_and (cy_neq (prop db u1 "userId") (prop db u2 "userId"))
                        (cy_eq (prop db c1 "claimType") (prop db c2 "claimType")))
                (cy_eq (prop db c1 "claimAmount") (prop db c2 "claimAmount")))
             (cy_eq (prop db c1 "incidentDate") (prop db c2 "incidentDate")))
          (cy_gt (prop db c1 "claimAmount") (VNum 0)))
  then
    '(p1, c1') ← match_rel db Policy HAS_CLAIM Claim;
    if bool_decide (c1' = c1) then
      '(p2, c2') ← match_rel db Policy HAS_CLAIM Claim;
      if bool_decide (c2' = c2)
         && cy_holds (cy_eq (prop db p1 "insurance_type")
                            (prop db p2 "insurance_type"))
      then [(u1, u2, c1, c2, p1, p2)] else []
    else []
  else [].

(** The RETURN clause of the claim query. *)
Definition claim_record (db : database) (u1 u2 c1 c2 p1 : nat) : record :=
  [("user1", prop db u1 "userId");
   ("user2", prop db u2 "userId");
   ("name1", prop db u1 "name");
   ("name2", prop db u2 "name");
   ("email1", prop db u1 "email");
   ("email2", prop db u2 "email");
   ("claim1", prop db c1 "claimId");
   ("claim2", prop db c2 "claimId");
   ("claim_type", prop db c1 "claimType");
   ("claim_amount", prop db c1 "claimAmount");
   ("incident_date", prop db c1 "incidentDate");
   ("insurance_type", prop db p1 "insurance_type")].

(** The query of [_detect_claim_networks]: one record per row. *)
Definition claim_query (db : database) : list record :=
  (λ '(u1, u2, c1, c2, p1, p2), claim_record db u1 u2 c1 c2 p1) <$> claim_rows db.

(** The body of the loop of [_detect_claim_networks]. *)
Definition claim_network (record : record) : res network :=
  user1 ← record_item record "user1";
  user2 ← record_item record "user2";
  name1 ← record_item record "name1";
  name2 ← record_item record "name2";
  email1 ← record_item record "email1";
  email2 ← record_item record "email2";
  claim_type ← record_item record "claim_type";
  claim1 ← record_item record "claim1";
  claim2 ← record_item record "claim2";
  claim_amount ← record_item record "claim_amount";
  incident_date ← record_item record "incident_date";
  insurance_type ← record_item record "insurance_type";
  Ok {| net_type := "claim_network";
        users := [user1; user2];
        user_names := [py_or name1 (VStr "Unknown"); py_or name2 (VStr "Unknown")];
        user_emails := [py_or email1 (VStr "No email"); py_or email2 (VStr "No email")];
        shared_attribute := VStr ("Identical " ++ py_str claim_type ++ " claim");
        risk_score := 0.9%Q;
        details := [("claim1", claim1);
                    ("claim2", claim2);
                    ("claim_type", claim_type);
                    ("claim_amount", claim_amount);
                    ("incident_date", incident_date);
                    ("insurance_type", insurance_type)] |}.

(** [_detect_claim_networks] *)
Definition _detect_claim_networks (db : database) : res (list network) :=
  mapM claim_network (claim_query db).

(** [_detect_suspicious_networks] *)
Definition _detect_suspicious_networks (db : database) : res (list network) :=
  phone_networks ← _detect_phone_networks db;
  let networks := ([] ++ phone_networks)%list in
  policy_networks ← _detect_policy_networks db;
  let networks := (networks ++ policy_networks)%list in
  claim_networks ← _detect_claim_networks db;
  let networks := (networks ++ claim_networks)%list in
  _remove_duplicate_networks networks.

(** *** Closed forms of the detector loops *)

(** The dict the loop of [_detect_claim_networks] builds from a row. *)
Definition claim_network_of (db : database)
    (row : nat * nat * nat * nat * nat * nat) : network :=
  let '(u1, u2, c1, c2, p1, p2) := row in
  {| net_type := "claim_network";
     users := [prop db u1 "userId"; prop db u2 "userId"];
     user_names := [py_or (prop db u1 "name") (VStr "Unknown");
                    py_or (prop db u2 "name") (VStr "Unknown")];
     user_emails := [py_or (prop db u1 "email") (VStr "No email");
                     py_or (prop db u2 "email") (VStr "No email")];
     shared_attribute :=
       VStr ("Identical " ++ py_str (prop db c1 "claimType") ++ " claim");
     risk_score := 0.9%Q;
     details := [("claim1", prop db c1 "claimId");
                 ("claim2", prop db c2 "claimId");
                 ("claim_type", prop db c1 "claimType");
                 ("claim_amount", prop db c1 "claimAmount");
                 ("incident_date", prop db c1 "incidentDate");
                 ("insurance_type", prop db p1 "insurance_type")] |}.

(** What [_calculate_network_risk_score] makes of a policy record: the
    record has no amount column, so both amounts read as the default 0. *)
Definition policy_risk (claims1 claims2 : list nat) : Q :=
  let count := qadd (qnat (length claims1)) (qnat (length claims2)) in
  py_min (if Qltb 5 count then qadd 0.3 0.3
          else if Qltb 2 count then qadd 0.3 0.2 else 0.3)%Q 1.

(** The dict the loop of [_detect_policy_networks] builds from a group. *)
Definition policy_network_of (db : database)
    (group : nat * nat * nat * nat * list nat * list nat) : network :=
  let '(u1, u2, p1, p2, claims1, claims2) := group in
  {| net_type := "policy_network";
     users := [prop db u1 "userId"; prop db u2 "userId"];
     user_names := [py_or (prop db u1 "name") (VStr "Unknown");
                    py_or (prop db u2 "name") (VStr "Unknown")];
     user_emails := [py_or (prop db u1 "email") (VStr "No email");
                     py_or (prop db u2 "email") (VStr "No email")];
     shared_attribute :=
       VStr ("Same " ++ py_str (prop db p1 "insurance_type") ++ " policy details");
     risk_score := policy_risk claims1 claims2;
     details := [("policy1", prop db p1 "policyId");
                 ("policy2", prop db p2 "policyId");
                 ("insurance_type", prop db p1 "insurance_type");
                 ("premium", prop db p1 "policy_annual_premium");
                 ("sum_insured", prop db p1 "sum_insured");
                 ("claims_count1", cy_size claims1);
                 ("claims_count2", cy_size claims2)] |}.
End Detectors.

(** ** Sample data *)

(** A Firestore document from its fields. *)
Definition doc (fields : list (string * value)) : dict := list_to_map fields.

(** A freshly created database, without schema. *)
Definition empty_database : database := Database [] [] [].

Definition sample_clock : nat → string := λ _, "2024-05-01T10:00:00".
Definition sample_repr : Q → string := λ _, "0".

(** Two users with the same phone, each with one policy of identical terms
    and one claim of 600,000 on it. *)
Definition twin_users : list dict :=
  [doc [("uid", VStr "a"); ("phone", VStr "555-0100"); ("displayName", VStr "Ann")];
   doc [("uid", VStr "b"); ("phone", VStr "555-0100"); ("displayName", VStr "Bob")]].

Definition twin_policies : list dict :=
  [doc [("policyId", VStr "p1"); ("userId", VStr "a");
        ("insurance_type", VStr "auto");
        ("policy_annual_premium", VNum 12000); ("sum_insured", VNum 500000)];
   doc [("policyId", VStr "p2"); ("userId", VStr "b");
        ("insurance_type", VStr "auto");
        ("policy_annual_premium", VNum 12000); ("sum_insured", VNum 500000)]].

Definition twin_claims : list dict :=
  [doc [("claimId", VStr "c1"); ("policyId", VStr "p1"); ("userId", VStr "a");
        ("claimType", VStr "collision"); ("claimAmount", VNum 600000);
        ("incidentDate", VStr "2024-04-01"); ("submittedDate", VStr "2024-04-02")];
   doc [("claimId", VStr "c2"); ("policyId", VStr "p2"); ("userId", VStr "b");
        ("claimType", VStr "collision"); ("claimAmount", VNum 600000);
        ("incidentDate", VStr "2024-04-01"); ("submittedDate", VStr "2024-04-03")]].


(** The database after loading the twins. *)
Definition twin_database : database :=
  Eval vm_compute in
    match load_data_from_firestore sample_clock twin_users twin_policies
            twin_claims empty_database with
    | Ok db => db
    | Raise _ => empty_database
    end.

(** ** Invariants of a loaded database *)

(** User nodes are created without a [name] property. *)
Definition unnamed_user (n : node) : Prop :=
  node_label n = User → node_props n !! "name" = None.

(** ** Deduplication, stated on keys *)

#[global] Instance error_eq_dec : EqDecision error.
Proof. solve_decision. Defined.

#[global] Instance res_eq_dec {A} `{EqDecision A} : EqDecision (res A).
Proof. solve_decision. Defined.

(** The key [_remove_duplicate_networks] files a network under. *)
Definition user_key (n : network) : res (list value) := py_sorted (users n).

(** Two networks are about the same unordered pair when their keys agree. *)
Definition same_pair (n m : network) : Prop := user_key m = user_key n.

#[global] Instance same_pair_dec n m : Decision (same_pair n m).
Proof. unfold same_pair. apply _. Defined.

Definition is_string (v : value) : Prop :=
  match v with
  | VStr _ => True
  | _ => False
  end.

(** A network whose user ids are all strings. *)
Definition string_users (n : network) : Prop := Forall is_string (users n).

(** The first element of a list with a property. *)
Fixpoint first_with {A} (P : A → Prop) `{∀ x, Decision (P x)} (l : list A)
    : option A :=
  match l with
  | [] => None
  | x :: l' => if decide (P x) then Some x else first_with P l'
  end.

(** First-wins selection: an element is kept when no earlier element, and no
    key of [seen], has its key. *)
Fixpoint first_wins {A K} `{EqDecision K} (key : A → K) (seen : list K)
    (l : list A) : list A :=
  match l with
  | [] => []
  | x :: l' =>
      if decide (key x ∈ seen) then first_wins key seen l'
      else x :: first_wins key (key x :: seen) l'
  end.

(** What each detector returns on the loaded twins. *)
Definition twin_phone_networks : list network :=
  Eval vm_compute in
    match _detect_phone_networks twin_database with
    | Ok l => l
    | Raise _ => []
    end.

Definition twin_policy_networks : list network :=
  Eval vm_compute in
    match _detect_policy_networks sample_repr twin_database with
    | Ok l => l
    | Raise _ => []
    end.

Definition twin_claim_networks : list network :=
  Eval vm_compute in
    match _detect_claim_networks sample_repr twin_database with
    | Ok l => l
    | Raise _ => []
    end.


(** ** Counting, and graphs that differ only in time stamps *)

Definition count_label (db : database) (l : label) : nat :=
  length (filter (λ n, node_label n = l) (nodes db)).

Definition count_rel (db : database) (t : rel_type) : nat :=
  length (filter (λ r, rel_kind r = t) (rels db)).

(** Two nodes that differ at most in [createdAt]. *)
Definition same_node (n n' : node) : Prop :=
  node_label n = node_label n' ∧
  delete "createdAt" (node_props n) = delete "createdAt" (node_props n').

(** Two databases with the same relationships and constraints, and nodes
    that differ at most in [createdAt]. *)
Definition same_graph (db db' : database) : Prop :=
  Forall2 same_node (nodes db) (nodes db') ∧
  rels db = rels db' ∧
  constraints db = constraints db'.

(** Two runs that fail alike or return related results. *)
Definition res_rel {A} (R : A → A → Prop) (r r' : res A) : Prop :=
  match r, r' with
  | Ok a, Ok a' => R a a'
  | Raise e, Raise e' => e = e'
  | _, _ => False
  end.

(** ** Fraud indicators *)

(** Cypher's order on values, ascending: strings, then numbers, then null. *)
Definition cy_order_le (a b : value) : bool :=
  match a, b with
  | VStr x, VStr y => String.leb x y
  | VStr _, _ => true
  | VNum _, VStr _ => false
  | VNum x, VNum y => Qle_bool x y
  | VNum _, VNull => true
  | VNull, VNull => true
  | VNull, _ => false
  end.

(** Two records in the order [ORDER BY col DESC] wants them. *)
Definition desc_by (col : string) (r1 r2 : record) : Prop :=
  cy_order_le (record_get r2 col VNull) (record_get r1 col VNull) = true.

#[global] Instance desc_by_dec col r1 r2 : Decision (desc_by col r1 r2).
Proof. unfold desc_by. apply _. Defined.

(** [ORDER BY col DESC] *)
Definition order_by_desc (col : string) (records : list record) : list record :=
  merge_sort (desc_by col) records.

(** [s CONTAINS sub], null unless [s] is a string. *)
Definition str_contains (s sub : string) : bool :=
  if String.index 0 sub s is Some _ then true else false.

Definition cy_contains (v : value) (sub : string) : option bool :=
  match v with
  | VStr s => Some (str_contains s sub)
  | _ => None
  end.

(** The pattern [(u:User)-[:FILED]->(c:Claim)]. *)
Definition filed (db : database) : list (nat * nat) :=
  match_rel db User FILED Claim.

(** [WITH u, collect(c) as claims] over a list of [(u, c)] rows. *)
Definition collect_claims (rows : list (nat * nat)) : list (nat * list nat) :=
  (λ g : nat * list (nat * nat), (g.1, snd <$> g.2)) <$> group_by fst rows.

(** The groups of the high-fraud-score query: only claims with
    [fraudScore > 0.7] are matched, and only they are collected. *)
Definition high_fraud_groups (db : database) : list (nat * list nat) :=
  filter (λ '(_, claims), 0 < length claims)%nat
    (collect_claims
       (filter (λ '(_, c), cy_holds (cy_gt (prop db c "fraudScore") (VNum 0.7)) = true)
               (filed db))).

(** The RETURN clause of the high-fraud-score query. *)
Definition high_fraud_record (db : database) (group : nat * list nat) : res record :=
  let '(u, claims) := group in
  total ← cy_sum db "fraudScore" claims;
  avg_fraud_score ← cy_div_size total (length claims);
  total_amount ← cy_sum db "claimAmount" claims;
  Ok [("u.userId", prop db u "userId");
      ("u.email", prop db u "email");
      ("u.phone", prop db u "phone");
      ("claim_count", cy_size claims);
      ("avg_fraud_score", avg_fraud_score);
      ("total_amount", total_amount)].

(** The high-fraud-score query, with its ORDER BY and LIMIT. *)
Definition high_fraud_query (db : database) : res (list record) :=
  records ← mapM (high_fraud_record db) (high_fraud_groups db);
  Ok (take 20 (order_by_desc "avg_fraud_score" records)).

(** A dict literal the code builds: its keys in order, each with its value. *)
Definition pydict : Type := list (string * value).

(** The dict appended to [high_fraud_score_users]. *)
Definition high_fraud_entry (record : record) : res pydict :=
  userId ← record_item record "u.userId";
  email ← record_item record "u.email";
  phone ← record_item record "u.phone";
  claim_count ← record_item record "claim_count";
  avg_fraud_score ← record_item record "avg_fraud_score";
  total_amount ← record_item record "total_amount";
  Ok [("userId", userId); ("email", email); ("phone", phone);
      ("claim_count", claim_count); ("avg_fraud_score", avg_fraud_score);
      ("total_amount", total_amount)].

(** The first query of [_analyze_fraud_indicators] and the loop over its
    result: the list stored under [high_fraud_score_users]. *)
Definition high_fraud_indicator (db : database) : res (list pydict) :=
  result ← high_fraud_query db;
  mapM high_fraud_entry result.

(** The dict appended to [rapid_claim_filers], by either loop. *)
Definition filer_entry (record : record) : res pydict :=
  userId ← record_item record "u.userId";
  email ← record_item record "u.email";
  phone ← record_item record "u.phone";
  claim_count ← record_item record "claim_count";
  total_amount ← record_item record "total_amount";
  Ok [("userId", userId); ("email", email); ("phone", phone);
      ("claim_count", claim_count); ("total_amount", total_amount)].

(** The RETURN clause shared by the two rapid-filer queries; the date columns
    ([latest_date], [earliest_date], [filed_dates]) are only logged and are
    left out. *)
Definition filer_record (db : database) (group : nat * list nat) : res record :=
  let '(u, claims) := group in
  total_amount ← cy_sum db "claimAmount" claims;
  Ok [("u.userId", prop db u "userId");
      ("u.email", prop db u "email");
      ("u.phone", prop db u "phone");
      ("claim_count", cy_size claims);
      ("total_amount", total_amount)].

(** The groups of the fallback query: users with two filed claims or more,
    whatever the dates. *)
Definition fallback_groups (db : database) : list (nat * list nat) :=
  filter (λ '(_, claims), 2 ≤ length claims)%nat (collect_claims (filed db)).

(** The fallback query, with its ORDER BY and LIMIT. *)
Definition fallback_query (db : database) : res (list record) :=
  records ← mapM (filer_record db) (fallback_groups db);
  Ok (take 10 (order_by_desc "claim_count" records)).

(** The result of [_analyze_fraud_indicators]. *)
Record indicators : Type := Indicators {
  high_fraud_score_users : list pydict;
  rapid_claim_filers : list pydict;
  suspicious_amounts : list pydict;
  time_patterns : list pydict;
  document_patterns : list pydict
}.

Section Temporal.
(** Neo4j's temporal values and functions. [cy_date s] and [cy_datetime s]
    are [None] when the function rejects the text, which fails the query;
    a comparison is [None] (null) when the two values are not comparable;
    [duration_days a b] is [duration.between(a, b).days]. *)
Variable temporal : Type.
Variable cy_date : string → option temporal.
Variable cy_datetime : string → option temporal.
Variable temporal_gt : temporal → temporal → option bool.
Variable temporal_lt : temporal → temporal → option bool.
Variable duration_days : temporal → temporal → Q.

(** [date(v)] or [datetime(v)]: null for null, an error for a text the
    function rejects. *)
Definition cy_temporal (parse : string → option temporal) (v : value)
    : res (option temporal) :=
  match v with
  | VNull => Ok None
  | VStr s =>
      match parse s with
      | Some d => Ok (Some d)
      | None => Raise TemporalError
      end
  | VNum _ => Raise TypeError
  end.

(** The CASE expression that computes [parsed_date]; only the branch taken
    is evaluated. *)
Definition parsed_date (submittedDate : value) : res (option temporal) :=
  match cy_contains submittedDate "-" with
  | Some true =>
      match cy_contains submittedDate "T" with
      | Some true => cy_temporal cy_datetime submittedDate
      | _ => cy_temporal cy_date submittedDate
      end
  | _ => Ok None
  end.

(** The rows of the date-aware query after [WHERE parsed_date IS NOT NULL]. *)
Definition dated_rows (db : database) : res (list (nat * nat * temporal)) :=
  rows ← mapM (λ '(u, c),
                 d ← parsed_date (prop db c "submittedDate");
                 Ok (u, c, d))
              (filter (λ '(_, c),
                         cy_holds
                           (cy_and (Some (negb (bool_decide
                                       (prop db c "submittedDate" = VNull))))
                                   (cy_neq (prop db c "submittedDate") (VStr "")))
                         = true)
                      (filed db));
  Ok (omap (λ '(u, c, d), (λ d, (u, c, d)) <$> d) rows).

(** [reduce(max_date = head(dates), date in dates | CASE ...)] and its twin. *)
Definition latest_of (dates : list temporal) : option temporal :=
  (λ d0, foldl (λ max_date date,
                  if cy_holds (temporal_gt date max_date) then date else max_date)
               d0 dates) <$> head dates.

Definition earliest_of (dates : list temporal) : option temporal :=
  (λ d0, foldl (λ min_date date,
                  if cy_holds (temporal_lt date min_date) then date else min_date)
               d0 dates) <$> head dates.

(** The groups of the date-aware query: two dated claims or more, the
    earliest and the latest at most 30 days apart. *)
Definition rapid_groups (rows : list (nat * nat * temporal)) : list (nat * list nat) :=
  omap (λ '(u, rows),
          let claims := (λ '(_, c, _), c) <$> rows in
          let dates := (λ '(_, _, d), d) <$> rows in
          if bool_decide (2 ≤ length claims)%nat then
            match earliest_of dates, latest_of dates with
            | Some earliest_date, Some latest_date =>
                if Qle_bool (duration_days earliest_date latest_date) 30
                then Some (u, claims) else None
            | _, _ => None
            end
          else None)
       (group_by (λ '(u, _, _), u) rows).

(** The date-aware rapid-filer query. *)
Definition rapid_filer_query (db : database) : res (list record) :=
  rows ← dated_rows db;
  records ← mapM (filer_record db) (rapid_groups rows);
  Ok (order_by_desc "claim_count" records).

(** [_analyze_fraud_indicators] *)
Definition _analyze_fraud_indicators (db : database) : res indicators :=
  high ← high_fraud_indicator db;
  result ← rapid_filer_query db;
  rapid ← mapM filer_entry result;
  let rapid_filers_count := length result in
  rapid ←
    (if bool_decide (rapid_filers_count = 0%nat) then
       fallback_result ← fallback_query db;
       more ← mapM filer_entry fallback_result;
       Ok (rapid ++ more)%list
     else Ok rapid);
  Ok {| high_fraud_score_users := high;
        rapid_claim_filers := rapid;
        suspicious_amounts := [];
        time_patterns := [];
        document_patterns := [] |}.
End Temporal.

(** ** User risk scores *)

(** [a * b] on numbers; the code only multiplies by float literals. *)
Definition py_mul (a b : value) : res value :=
  match a, b with
  | VNum x, VNum y => Ok (VNum (qmul x y))
  | _, _ => Raise TypeError
  end.

(** [min(a, b)]: the first argument unless the second is smaller. *)
Definition py_min_value (a b : value) : res value :=
  lt ← py_lt b a;
  Ok (if lt : bool then b else a).

(** [d[k] = v] on a dict with arbitrary keys, kept in insertion order. *)
Fixpoint py_setitem {A} (d : list (value * A)) (k : value) (v : A)
    : list (value * A) :=
  match d with
  | [] => [(k, v)]
  | (k', v') :: d' =>
      if py_eq k' k then (k', v) :: d' else (k', v') :: py_setitem d' k v
  end.

(** The groups of the risk query: every user with a filed claim. *)
Definition risk_groups (db : database) : list (nat * list nat) :=
  filter (λ '(_, claims), 0 < length claims)%nat (collect_claims (filed db)).

(** [reduce(max_val = 0, claim in claims | CASE WHEN claim.k > max_val ...)] *)
Definition cy_max (db : database) (k : string) (claims : list nat) : value :=
  foldl (λ max_val claim,
           if cy_holds (cy_gt (prop db claim k) max_val)
           then prop db claim k else max_val)
        (VNum 0) claims.

(** The RETURN clause of the risk query. *)
Definition risk_record (db : database) (group : nat * list nat) : res record :=
  let '(u, claims) := group in
  total ← cy_sum db "fraudScore" claims;
  avg_fraud_score ← cy_div_size total (length claims);
  total_amount ← cy_sum db "claimAmount" claims;
  Ok [("u.userId", prop db u "userId");
      ("u.displayName", prop db u "displayName");
      ("u.email", prop db u "email");
      ("claim_count", cy_size claims);
      ("avg_fraud_score", avg_fraud_score);
      ("total_amount", total_amount);
      ("max_claim_amount", cy_max db "claimAmount" claims)].

Definition risk_query (db : database) : res (list record) :=
  mapM (risk_record db) (risk_groups db).

(** The body of the loop of [_calculate_risk_scores]: the key and the dict
    stored under it. *)
Definition risk_entry (record : record) : res (value * pydict) :=
  user_id ← record_item record "u.userId";
  claim_count ← record_item record "claim_count";
  tenth ← py_truediv claim_count (VNum 10);
  claim_count_score ← py_min_value tenth (VNum 1);
  avg_fraud_score ← record_item record "avg_fraud_score";
  let fraud_score := py_or avg_fraud_score (VNum 0) in
  total_amount ← record_item record "total_amount";
  millionth ← py_truediv total_amount (VNum 1000000);
  amount_score ← py_min_value millionth (VNum 1);
  count_part ← py_mul claim_count_score (VNum 0.3);
  fraud_part ← py_mul fraud_score (VNum 0.5);
  partial ← py_add count_part fraud_part;
  amount_part ← py_mul amount_score (VNum 0.2);
  overall_risk ← py_add partial amount_part;
  max_claim_amount ← record_item record "max_claim_amount";
  displayName ← record_item record "u.displayName";
  email ← record_item record "u.email";
  Ok (user_id,
      [("overall_risk", overall_risk);
       ("claim_count", claim_count);
       ("avg_fraud_score", fraud_score);
       ("total_amount", total_amount);
       ("max_claim_amount", max_claim_amount);
       ("displayName", py_or displayName (VStr "Unknown User"));
       ("email", py_or email (VStr "No email"))]).

Fixpoint risk_scores_loop (risk_scores : list (value * pydict))
    (result : list record) : res (list (value * pydict)) :=
  match result with
  | [] => Ok risk_scores
  | record :: rest =>
      '(user_id, entry) ← risk_entry record;
      risk_scores_loop (py_setitem risk_scores user_id entry) rest
  end.

(** [_calculate_risk_scores] *)
Definition _calculate_risk_scores (db : database) : res (list (value * pydict)) :=
  result ← risk_query db;
  risk_scores_loop [] result.


(** ** More sample data *)










(** One user with two claims: one scored 0.9 by the model, one scored 0.1. *)
Definition mixed_users : list dict := [doc [("uid", VStr "v")]].
Definition mixed_policies : list dict :=
  [doc [("policyId", VStr "pv"); ("userId", VStr "v")]].
Definition mixed_claims : list dict :=
  [doc [("claimId", VStr "v1"); ("policyId", VStr "pv"); ("userId", VStr "v");
        ("claimAmount", VNum 1000); ("fraudScore", VNum 0.9)];
   doc [("claimId", VStr "v2"); ("policyId", VStr "pv"); ("userId", VStr "v");
        ("claimAmount", VNum 500); ("fraudScore", VNum 0.1)]].

Definition mixed_database : database :=
  Eval vm_compute in
    match load_data_from_firestore sample_clock mixed_users mixed_policies
            mixed_claims empty_database with
    | Ok db => db
    | Raise _ => empty_database
    end.

(** One user with six claims of 200,000 each, three scored 0.4 and three
    scored 0.6: 6 claims, total 1,200,000, average score 0.5. *)
Definition six_users : list dict := [doc [("uid", VStr "u")]].
Definition six_policies : list dict :=
  [doc [("policyId", VStr "pu"); ("userId", VStr "u")]].
Definition six_claim (id : string) (score : Q) : dict :=
  doc [("claimId", VStr id); ("policyId", VStr "pu"); ("userId", VStr "u");
       ("claimAmount", VNum 200000); ("fraudScore", VNum score)].
Definition six_claims : list dict :=
  [six_claim "u1" 0.4; six_claim "u2" 0.6; six_claim "u3" 0.4;
   six_claim "u4" 0.6; six_claim "u5" 0.4; six_claim "u6" 0.6].

Definition six_database : database :=
  Eval vm_compute in
    match load_data_from_firestore sample_clock six_users six_policies
            six_claims empty_database with
    | Ok db => db
    | Raise _ => empty_database
    end.

(** ** Sums, for stating what the queries add up *)

(** A numeric property of a node, 0 when it is not a number. *)
Definition prop_num (db : database) (k : string) (i : nat) : Q :=
  match prop db i k with
  | VNum q => q
  | _ => 0%Q
  end.

Definition qsum (l : list Q) : Q := foldr Qplus 0%Q l.

(** The claims a user node has filed, one per FILED relationship. *)
Definition claims_of (db : database) (u : nat) : list nat :=
  snd <$> filter (λ r, r.1 = u) (filed db).


(** What the risk scorer returns for the user with six claims. *)
Definition six_scores : list (value * pydict) :=
  Eval vm_compute in
    match _calculate_risk_scores six_database with
    | Ok scores => scores
    | Raise _ => []
    end.

(** The claims of a user that the high-fraud-score query matches: those
    with [fraudScore > 0.7]. *)
Definition hot_claims_of (db : database) (u : nat) : list nat :=
  snd <$> filter (λ r, r.1 = u)
            (filter (λ '(_, c),
                       cy_holds (cy_gt (prop db c "fraudScore") (VNum 0.7)) = true)
                    (filed db)).

(** An entry of [high_fraud_score_users] that describes user [u] through the
    given claims: their number, their average fraudScore, their total. *)
Definition describes (db : database) (u : nat) (claims : list nat) (e : pydict) : Prop :=
  record_find e "userId" = Some (prop db u "userId") ∧
  record_find e "email" = Some (prop db u "email") ∧
  record_find e "phone" = Some (prop db u "phone") ∧
  record_find e "claim_count" = Some (VNum (qnat (length claims))) ∧
  (∃ a, record_find e "avg_fraud_score" = Some (VNum a) ∧
        (a == qsum (prop_num db "fraudScore" <$> claims) / qnat (length claims))%Q) ∧
  (∃ t, record_find e "total_amount" = Some t ∧
        cy_sum db "claimAmount" claims = Ok t).

(** The dict built from a record, or the empty dict when a column is
    missing. *)
Definition high_fraud_entry_of (record : record) : pydict :=
  match high_fraud_entry record with
  | Ok e => e
  | Raise _ => []
  end.

(** What the high-fraud-score indicator returns for the user with one claim
    scored 0.9 and one scored 0.1. *)
Definition mixed_entries : list pydict :=
  Eval vm_compute in
    match high_fraud_indicator mixed_database with
    | Ok entries => entries
    | Raise _ => []
    end.




(** ** What a load writes *)

(** The nodes the three loops of [load_data_from_firestore] create, in the
    order they are created. *)
Definition user_nodes (now : nat → string) (users_data : list dict) : list node :=
  imap (λ t user, Node User (stored (user_params now t user))) users_data.

Definition policy_nodes (policies_data : list dict) : list node :=
  (λ policy, Node Policy (stored (policy_params policy))) <$> policies_data.

Definition claim_nodes (claims_data : list dict) : list node :=
  (λ claim, Node Claim (stored (claim_params claim))) <$> claims_data.

(** The relationships one loop of [_create_relationships] creates: for each
    document, one per pair of nodes its two MATCH clauses find. *)
Definition links (db : database) (la : label) (ka fa : string) (t : rel_type)
    (lb : label) (kb fb : string) (data : list dict) : list relationship :=
  d ← data;
  a ← match_node db la ka (dict_get d fa (VStr ""));
  b ← match_node db lb kb (dict_get d fb (VStr ""));
  [Rel t a b].

(** The labels a relationship type joins. *)
Definition rel_labels (t : rel_type) : label * label :=
  match t with
  | OWNS => (User, Policy)
  | HAS_CLAIM => (Policy, Claim)
  | FILED => (User, Claim)
  end.

(** No two nodes of label [l] have the same key: what the uniqueness
    constraint of [l] demands. A node without the key breaks nothing. *)
Definition unique_keys (db : database) (l : label) : Prop :=
  ∀ i j, i ≠ j → has_label db i l = true → has_label db j l = true →
         cy_holds (cy_eq (prop db i (unique_key l)) (prop db j (unique_key l)))
         = false.

(** One user with one policy and one claim on it, loaded after
    [create_schema]. *)
Definition solo_users : list dict :=
  [doc [("uid", VStr "s"); ("phone", VStr "555-0199")]].
Definition solo_policies : list dict :=
  [doc [("policyId", VStr "ps"); ("userId", VStr "s")]].
Definition solo_claims : list dict :=
  [doc [("claimId", VStr "cs"); ("policyId", VStr "ps"); ("userId", VStr "s");
        ("claimAmount", VNum 1000); ("fraudScore", VNum 0.2)]].

Definition solo_database : database :=
  Eval vm_compute in
    match load_data_from_firestore sample_clock solo_users solo_policies
            solo_claims (create_schema empty_database) with
    | Ok db => db
    | Raise _ => empty_database
    end.


(** Two users, a and b, with the same phone, one policy and one claim each;
    the claim of a has no amount (its document held [None]). *)
Definition null_amount_database : database :=
  Database
    [Node User (list_to_map [("userId", VStr "a"); ("phone", VStr "555-0100")]);
     Node User (list_to_map [("userId", VStr "b"); ("phone", VStr "555-0100")]);
     Node Policy (list_to_map [("policyId", VStr "p1")]);
     Node Policy (list_to_map [("policyId", VStr "p2")]);
     Node Claim (list_to_map [("claimId", VStr "c1"); ("fraudScore", VNum 0.9)]);
     Node Claim (list_to_map [("claimId", VStr "c2"); ("claimAmount", VNum 7000);
                              ("fraudScore", VNum 0.6)])]
    [Rel OWNS 0 2; Rel OWNS 1 3; Rel HAS_CLAIM 2 4; Rel HAS_CLAIM 3 5;
     Rel FILED 0 4; Rel FILED 1 5]
    [].

(** What [_detect_suspicious_networks] returns on the loaded twins. *)
Definition twin_networks : list network :=
  Eval vm_compute in
    match _detect_suspicious_networks sample_repr twin_database with
    | Ok l => l
    | Raise _ => []
    end.


(** ** Recommendations and the whole analysis *)

(** The dict [detect_fraud_rings] returns. *)
Record results : Type := Results {
  suspicious_networks : list network;
  fraud_indicators : indicators;
  risk_scores : list (value * pydict);
  recommendations : list string
}.

(** Truth value of a list: false when empty. *)
Definition py_nonempty {A} (l : list A) : bool :=
  match l with
  | [] => false
  | _ :: _ => true
  end.

(** [len(l)] inside an f-string: the decimal numeral. *)
Definition py_len_str {A} (l : list A) : string := pretty (length l).

(** [[user for user, score in risk_scores.items()
      if score['overall_risk'] > 0.7]] *)
Fixpoint high_risk_users (items : list (value * pydict)) : res (list value) :=
  match items with
  | [] => Ok []
  | (user, score) :: rest =>
      overall_risk ← record_item score "overall_risk";
      high ← py_gt overall_risk (VNum 0.7);
      users ← high_risk_users rest;
      Ok (if high : bool then user :: users else users)
  end.

(** [_generate_recommendations]; the messages are the source's string
    literals, byte for byte in UTF-8. *)
Definition _generate_recommendations (results : results) : res (list string) :=
  let recommendations := [] in
  let recommendations :=
    if py_nonempty (suspicious_networks results)
    then (recommendations
          ++ [("ðŸš¨ " ++ py_len_str (suspicious_networks results)
              ++ " suspicious networks detected - investigate immediately")%string])%list
    else recommendations in
  high_risk_users ← high_risk_users (risk_scores results);
  let recommendations :=
    if py_nonempty high_risk_users
    then (recommendations
          ++ [("âš ï¸ " ++ py_len_str high_risk_users
              ++ " high-risk users identified - manual review required")%string])%list
    else recommendations in
  let recommendations :=
    if py_nonempty (rapid_claim_filers (fraud_indicators results))
    then (recommendations
          ++ [("âš¡ " ++ py_len_str (rapid_claim_filers (fraud_indicators results))
              ++ " users filing claims rapidly - investigate patterns")%string])%list
    else recommendations in
  Ok recommendations.

Section Analysis.
Variable num_repr : Q → string.
Variable temporal : Type.
Variable cy_date : string → option temporal.
Variable cy_datetime : string → option temporal.
Variable temporal_gt : temporal → temporal → option bool.
Variable temporal_lt : temporal → temporal → option bool.
Variable duration_days : temporal → temporal → Q.

(** [detect_fraud_rings]: the four steps in order; the placeholders the
    dict starts with are all overwritten before they are read. *)
Definition detect_fraud_rings (db : database) : res results :=
  networks ← _detect_suspicious_networks num_repr db;
  indicators ← _analyze_fraud_indicators temporal cy_date cy_datetime
                 temporal_gt temporal_lt duration_days db;
  scores ← _calculate_risk_scores db;
  recommendations ← _generate_recommendations (Results networks indicators scores []);
  Ok (Results networks indicators scores recommendations).
End Analysis.

(** ** Visualization data *)

(** The rows of the visualization query. *)
Definition visualization_rows (db : database) : list (nat * nat) :=
  filter (λ '(_, c), cy_holds (cy_gt (prop db c "fraudScore") (VNum 0.5)) = true)
         (filed db).

(** Its RETURN clause: the columns are named by their expressions. *)
Definition visualization_record (db : database) (row : nat * nat) : record :=
  let '(u, c) := row in
  [("u.userId", prop db u "userId");
   ("u.email", prop db u "email");
   ("u.phone", prop db u "phone");
   ("c.claimId", prop db c "claimId");
   ("c.claimAmount", prop db c "claimAmount");
   ("c.fraudScore", prop db c "fraudScore")].

Definition visualization_query (db : database) : list record :=
  visualization_record db <$> visualization_rows db.

(** The dict appended to [nodes]; the items are evaluated in order. *)
Definition visualization_node (record : record) : res pydict :=
  id ← record_item record "u.userId";
  label ← record_item record "u.email";
  fraudScore ← record_item record "c.fraudScore";
  claimAmount ← record_item record "claimAmount";
  Ok [("id", id); ("label", label); ("type", VStr "user");
      ("fraudScore", fraudScore); ("claimAmount", claimAmount)].

(** What [get_network_visualization_data] returns. *)
Record visualization : Type := Visualization {
  vis_nodes : list pydict;
  vis_edges : list pydict
}.

(** [get_network_visualization_data] *)
Definition get_network_visualization_data (db : database) : res visualization :=
  let edges := [] in
  nodes ← mapM visualization_node (visualization_query db);
  Ok {| vis_nodes := nodes; vis_edges := edges |}.
(** * Properties *)

(** ** Arithmetic helpers *)

Lemma Qltb_lt a b : Qltb a b = true ↔ (a < b)%Q.
Proof.
  unfold Qltb. rewrite negb_true_iff. split.
  - intros H. apply Qnot_le_lt. intros Hle.
    apply Qle_bool_iff in Hle. congruence.
  - intros H. destruct (Qle_bool b a) eqn:E; [|done].
    apply Qle_bool_iff in E. exfalso. by apply (Qlt_not_le a b).
Qed.

Lemma Qltb_proper a a' b b' :
  (a == a')%Q → (b == b')%Q → Qltb a b = Qltb a' b'.
Proof.
  intros Ha Hb. destruct (Qltb a' b') eqn:E.
  - apply Qltb_lt. apply Qltb_lt in E. by rewrite Ha, Hb.
  - destruct (Qltb a b) eqn:E'; [|done].
    apply Qltb_lt in E'. rewrite Ha, Hb in E'. apply Qltb_lt in E'. congruence.
Qed.

Lemma qadd_correct a b : (qadd a b == a + b)%Q.
Proof. apply Qred_correct. Qed.

(** ** C1: the network risk score follows the stated formula *)

(** C1. For every detector record whose count and amount columns are numbers
    (a missing column reads as 0), [_calculate_network_risk_score] returns
    base 0.3, plus 0.3 if the combined count exceeds 5 (else 0.2 if it
    exceeds 2), plus 0.3 if the combined total exceeds 1,000,000 (else 0.2 if
    it exceeds 500,000), clamped to [0,1]. *)
Theorem network_risk_score_formula (r : record) (c1 c2 a1 a2 : Q) :
  record_get r "claims_count1" (VNum 0) = VNum c1 →
  record_get r "claims_count2" (VNum 0) = VNum c2 →
  record_get r "total_amount1" (VNum 0) = VNum a1 →
  record_get r "total_amount2" (VNum 0) = VNum a2 →
  ∃ s, _calculate_network_risk_score r = Ok s
       ∧ (s == spec_network_risk (c1 + c2) (a1 + a2))%Q.
Proof.
  intros H1 H2 H3 H4. unfold _calculate_network_risk_score.
  rewrite H1, H2, H3, H4. cbn [py_add mbind res_bind py_gt].
  unfold spec_network_risk, count_bonus, amount_bonus.
  rewrite !(Qltb_proper _ _ (qadd _ _) _ (reflexivity _) (qadd_correct _ _)).
  destruct (Qltb 5 (c1 + c2)); [|destruct (Qltb 2 (c1 + c2))];
    (destruct (Qltb 1000000 (a1 + a2)); [|destruct (Qltb 500000 (a1 + a2))]);
    eexists; (split; [reflexivity|]); by vm_compute.
Qed.

Lemma network_risk_score_formula_witness :
  ∃ s, _calculate_network_risk_score
         [("claims_count1", VNum 4); ("claims_count2", VNum 3);
          ("total_amount1", VNum 400000); ("total_amount2", VNum 200000)]
       = Ok s
       ∧ (s == spec_network_risk (4 + 3) (400000 + 200000))%Q.
Proof.
  apply (network_risk_score_formula _ 4 3 400000 200000); reflexivity.
Defined.

(** ** The error monad *)

Lemma bind_Ok {A B} (m : res A) (f : A → res B) (b : B) :
  m ≫= f = Ok b ↔ ∃ a, m = Ok a ∧ f a = Ok b.
Proof.
  destruct m as [a|e]; cbn; split.
  - eauto.
  - by intros (a' & [= ->] & ?).
  - done.
  - by intros (? & ? & ?).
Qed.

Lemma mapM_Ok_fmap {A B C} (f : A → B) (g : B → res C) (h : A → C) (l : list A) :
  (∀ x, x ∈ l → g (f x) = Ok (h x)) →
  mapM g (f <$> l) = Ok (h <$> l).
Proof.
  induction l as [|x l IH]; intros Hl; [done|].
  cbn. rewrite (Hl x) by left. cbn.
  rewrite IH; [done|]. intros y Hy. apply Hl. by right.
Qed.

Lemma mapM_Ok_Forall2 {A B} (f : A → res B) (l : list A) (k : list B) :
  mapM f l = Ok k ↔ Forall2 (λ x y, f x = Ok y) l k.
Proof.
  revert k. induction l as [|x l IH]; intros k.
  - cbn. split.
    + intros [= <-]. constructor.
    + by intros ->%Forall2_nil_inv_l.
  - cbn. split.
    + intros (y & Hy & (k' & Hk' & [= <-])%bind_Ok)%bind_Ok.
      constructor; [done|]. by apply IH.
    + intros (y & k' & Hy & Hk' & ->)%Forall2_cons_inv_l.
      rewrite Hy. cbn. apply IH in Hk'. by rewrite Hk'.
Qed.

Lemma mapM_Ok_elem_of {A B} (f : A → res B) (l : list A) (k : list B) (y : B) :
  mapM f l = Ok k → y ∈ k → ∃ x, x ∈ l ∧ f x = Ok y.
Proof.
  intros H%mapM_Ok_Forall2 Hy.
  induction H as [|x y' l k Hxy _ IH]; [by apply elem_of_nil in Hy|].
  apply elem_of_cons in Hy as [->|Hy].
  - exists x. split; [left|done].
  - destruct (IH Hy) as (x' & ? & ?). exists x'. split; [by right|done].
Qed.


(** ** Patterns *)

Lemma cy_holds_and p q :
  cy_holds (cy_and p q) = true ↔ cy_holds p = true ∧ cy_holds q = true.
Proof. destruct p as [[]|], q as [[]|]; cbn; intuition congruence. Qed.

Lemma has_label_true db i l :
  has_label db i l = true ↔ ∃ n, nodes db !! i = Some n ∧ node_label n = l.
Proof.
  unfold has_label. destruct (nodes db !! i) as [n|]; cbn.
  - rewrite bool_decide_eq_true. split; [eauto|by intros (? & [= <-] & ?)].
  - split; [done|by intros (? & ? & ?)].
Qed.

Lemma elem_of_match_rel db la t lb a b :
  (a, b) ∈ match_rel db la t lb ↔
  Rel t a b ∈ rels db ∧ has_label db a la = true ∧ has_label db b lb = true.
Proof.
  unfold match_rel. rewrite list_elem_of_bind. split.
  - intros ([t' a' b'] & Hin & Hr). cbn in Hin.
    destruct (bool_decide (t' = t)) eqn:Et; cbn in Hin;
      [|by apply elem_of_nil in Hin].
    destruct (has_label db a' la) eqn:Ea; cbn in Hin;
      [|by apply elem_of_nil in Hin].
    destruct (has_label db b' lb) eqn:Eb; cbn in Hin;
      [|by apply elem_of_nil in Hin].
    apply list_elem_of_singleton in Hin as [= -> ->].
    apply bool_decide_eq_true in Et as ->. done.
  - intros (Hr & Ha & Hb). exists (Rel t a b). split; [|done]. cbn.
    rewrite bool_decide_eq_true_2, Ha, Hb by done. cbn. left.
Qed.

(** ** C6: claim networks carry the fixed score 0.9 *)

Section ClaimNetworks.
Variable num_repr : Q → string.

Lemma detect_claim_networks_eq db :
  _detect_claim_networks num_repr db
  = Ok (claim_network_of num_repr db <$> claim_rows db).
Proof.
  unfold _detect_claim_networks, claim_query.
  apply mapM_Ok_fmap. by intros [[[[[u1 u2] c1] c2] p1] p2] _.
Qed.

Lemma elem_of_claim_rows db u1 u2 c1 c2 p1 p2 :
  (u1, u2, c1, c2, p1, p2) ∈ claim_rows db ↔
  (u1, c1) ∈ match_rel db User FILED Claim ∧
  (u2, c2) ∈ match_rel db User FILED Claim ∧
  cy_holds
    (cy_and
       (cy_and
          (cy_and
             (cy_and (cy_neq (prop db u1 "userId") (prop db u2 "userId"))
                     (cy_eq (prop db c1 "claimType") (prop db c2 "claimType")))
             (cy_eq (prop db c1 "claimAmount") (prop db c2 "claimAmount")))
          (cy_eq (prop db c1 "incidentDate") (prop db c2 "incidentDate")))
       (cy_gt (prop db c1 "claimAmount") (VNum 0))) = true ∧
  (p1, c1) ∈ match_rel db Policy HAS_CLAIM Claim ∧
  (p2, c2) ∈ match_rel db Policy HAS_CLAIM Claim ∧
  cy_holds (cy_eq (prop db p1 "insurance_type") (prop db p2 "insurance_type"))
  = true.
Proof.
  unfold claim_rows. split.
  - intros ([u1' c1'] & Hin & H1)%list_elem_of_bind.
    apply list_elem_of_bind in Hin as ([u2' c2'] & Hin & H2).
    destruct (cy_holds _) eqn:Ew in Hin; [|by apply elem_of_nil in Hin].
    apply list_elem_of_bind in Hin as ([p1' c1''] & Hin & H3).
    case_bool_decide as E1; [subst c1''|by apply elem_of_nil in Hin].
    apply list_elem_of_bind in Hin as ([p2' c2''] & Hin & H4).
    destruct (_ && _) eqn:E2 in Hin; [|by apply elem_of_nil in Hin].
    apply andb_true_iff in E2 as [E2 E3]. apply bool_decide_eq_true in E2 as ->.
    apply list_elem_of_singleton in Hin as [= -> -> -> -> -> ->]. done.
  - intros (H1 & H2 & Hw & H3 & H4 & Hi).
    apply list_elem_of_bind. exists (u1, c1). split; [|done].
    apply list_elem_of_bind. exists (u2, c2). split; [|done].
    rewrite Hw.
    apply list_elem_of_bind. exists (p1, c1). split; [|done].
    rewrite bool_decide_eq_true_2 by done.
    apply list_elem_of_bind. exists (p2, c2). split; [|done].
    rewrite bool_decide_eq_true_2, Hi by done. cbn. left.
Qed.

(** C6. The claim-network detector always returns, every network it returns
    has risk score 0.9, and two claims filed by different users with the
    same type, the same positive amount and the same incident date, under
    policies of the same insurance type, do produce a network of the two
    users with that score. *)
Theorem claim_network_fixed_risk db :
  ∃ nets, _detect_claim_networks num_repr db = Ok nets ∧
    (∀ n, n ∈ nets → net_type n = "claim_network" ∧ risk_score n = 0.9%Q) ∧
    (∀ u1 u2 c1 c2 p1 p2 a b ty amount1 amount2 day it,
       Rel FILED u1 c1 ∈ rels db → Rel FILED u2 c2 ∈ rels db →
       Rel HAS_CLAIM p1 c1 ∈ rels db → Rel HAS_CLAIM p2 c2 ∈ rels db →
       has_label db u1 User = true → has_label db u2 User = true →
       has_label db c1 Claim = true → has_label db c2 Claim = true →
       has_label db p1 Policy = true → has_label db p2 Policy = true →
       prop db u1 "userId" = VStr a → prop db u2 "userId" = VStr b → a ≠ b →
       prop db c1 "claimType" = VStr ty → prop db c2 "claimType" = VStr ty →
       prop db c1 "claimAmount" = VNum amount1 →
       prop db c2 "claimAmount" = VNum amount2 →
       (amount1 == amount2)%Q → (0 < amount1)%Q →
       prop db c1 "incidentDate" = VStr day →
       prop db c2 "incidentDate" = VStr day →
       prop db p1 "insurance_type" = VStr it →
       prop db p2 "insurance_type" = VStr it →
       ∃ n, n ∈ nets ∧ users n = [VStr a; VStr b] ∧ risk_score n = 0.9%Q).
Proof.
  exists (claim_network_of num_repr db <$> claim_rows db).
  split; [apply detect_claim_networks_eq|]. split.
  - intros n ([[[[[u1 u2] c1] c2] p1] p2] & -> & _)%list_elem_of_fmap. done.
  - intros u1 u2 c1 c2 p1 p2 a b ty x y day it Hf1 Hf2 Hh1 Hh2
      Lu1 Lu2 Lc1 Lc2 Lp1 Lp2 Ha Hb Hab Ht1 Ht2 Hx Hy Hxy Hpos Hd1 Hd2 Hi1 Hi2.
    exists (claim_network_of num_repr db (u1, u2, c1, c2, p1, p2)). split.
    + apply list_elem_of_fmap. eexists; split; [done|].
      apply elem_of_claim_rows.
      rewrite !elem_of_match_rel, Ha, Hb, Ht1, Ht2, Hx, Hy, Hd1, Hd2, Hi1, Hi2.
      cbn. rewrite !String.eqb_refl.
      apply String.eqb_neq in Hab. rewrite Hab.
      apply Qeq_bool_iff in Hxy. rewrite Hxy.
      apply Qltb_lt in Hpos. rewrite Hpos. done.
    + cbn. by rewrite Ha, Hb.
Qed.
End ClaimNetworks.

Lemma claim_network_fixed_risk_witness :
  ∃ nets,
    _detect_claim_networks sample_repr twin_database = Ok nets ∧
    ∃ n, n ∈ nets ∧ users n = [VStr "a"; VStr "b"] ∧ risk_score n = 0.9%Q.
Proof.
  destruct (claim_network_fixed_risk sample_repr twin_database)
    as (nets & Hnets & _ & Hex).
  exists nets. split; [done|].
  apply (Hex 0 1 4 5 2 3 "a" "b" "collision" 600000%Q 600000%Q
           "2024-04-01" "auto")%nat;
    try (by vm_compute); apply (bool_decide_unpack _); by vm_compute.
Defined.

(** ** Grouping *)

Lemma elem_of_group_by {K A} `{EqDecision K} (key : A → K) (rows : list A) k rs :
  (k, rs) ∈ group_by key rows ↔
  (∃ r, r ∈ rows ∧ key r = k) ∧ rs = filter (λ r, key r = k) rows.
Proof.
  unfold group_by. rewrite list_elem_of_fmap. split.
  - intros (k' & [= -> ->] & Hk). split; [|done].
    apply elem_of_remove_dups, list_elem_of_fmap in Hk as (r & -> & Hr). eauto.
  - intros [(r & Hr & <-) ->]. exists (key r). split; [done|].
    apply elem_of_remove_dups, list_elem_of_fmap. eauto.
Qed.

(** ** Policy networks *)

Section PolicyNetworks.
Variable num_repr : Q → string.

Lemma policy_record_risk db u1 u2 p1 p2 claims1 claims2 :
  _calculate_network_risk_score (policy_record db u1 u2 p1 p2 claims1 claims2)
  = Ok (policy_risk claims1 claims2).
Proof.
  unfold _calculate_network_risk_score, policy_risk. cbn.
  destruct (Qltb 5 _); [done|]. cbn. by destruct (Qltb 2 _).
Qed.

Lemma policy_query_eq db :
  policy_query db
  = (λ '(u1, u2, p1, p2, claims1, claims2),
       policy_record db u1 u2 p1 p2 claims1 claims2) <$> policy_groups db.
Proof. done. Qed.

Lemma detect_policy_networks_eq db :
  _detect_policy_networks num_repr db
  = Ok (policy_network_of num_repr db <$> policy_groups db).
Proof.
  unfold _detect_policy_networks. rewrite policy_query_eq.
  apply mapM_Ok_fmap. intros [[[[[u1 u2] p1] p2] claims1] claims2] _.
  unfold policy_network.
  rewrite policy_record_risk. done.
Qed.

Lemma elem_of_policy_rows db u1 u2 p1 p2 c1 c2 :
  (u1, u2, p1, p2, c1, c2) ∈ policy_rows db →
  (u1, p1) ∈ match_rel db User OWNS Policy ∧
  (u2, p2) ∈ match_rel db User OWNS Policy ∧
  cy_holds (cy_neq (prop db u1 "userId") (prop db u2 "userId")) = true.
Proof.
  unfold policy_rows.
  intros ([u1' p1'] & Hin & H1)%list_elem_of_bind.
  apply list_elem_of_bind in Hin as ([u2' p2'] & Hin & H2).
  destruct (cy_holds _) eqn:Ew in Hin; [|by apply elem_of_nil in Hin].
  apply list_elem_of_bind in Hin as ([p1'' c1'] & Hin & H3).
  case_bool_decide as E1; [subst p1''|by apply elem_of_nil in Hin].
  apply list_elem_of_bind in Hin as ([p2'' c2'] & Hin & H4).
  case_bool_decide as E2; [subst p2''|by apply elem_of_nil in Hin].
  apply list_elem_of_singleton in Hin as [= -> -> -> -> -> ->].
  split; [done|]. split; [done|].
  by apply cy_holds_and in Ew as [[[[? _]%cy_holds_and _]%cy_holds_and _]%cy_holds_and _].
Qed.

Lemma elem_of_policy_groups db u1 u2 p1 p2 claims1 claims2 :
  (u1, u2, p1, p2, claims1, claims2) ∈ policy_groups db →
  ∃ c1 c2, (u1, u2, p1, p2, c1, c2) ∈ policy_rows db.
Proof.
  unfold policy_groups.
  intros [_ Hin]%list_elem_of_filter.
  apply list_elem_of_fmap in Hin as ([k rows] & [= -> -> ->] & Hin).
  apply elem_of_group_by in Hin as [([[[[[u1' u2'] p1'] p2'] c1] c2] & Hr & Hk) _].
  cbn in Hk. subst k. eauto.
Qed.
End PolicyNetworks.

(** ** C3: the policy detector's score has no amount part *)

(** C3 (evaluation at the failing input). Two users with the same phone hold
    policies of identical terms, each with one claim of 600,000. The policy
    detector returns both orientations of the pair with score 0.3, the base
    alone; the formula on the combined count 2 and the combined total
    1,200,000 gives 0.6, which is what the phone detector returns for the
    same pair. *)
Theorem policy_network_score_ignores_amounts :
  ∃ db n1 n2 m1 m2,
    load_data_from_firestore sample_clock twin_users twin_policies twin_claims
      empty_database = Ok db ∧
    _detect_policy_networks sample_repr db = Ok [n1; n2] ∧
    users n1 = [VStr "a"; VStr "b"] ∧ users n2 = [VStr "b"; VStr "a"] ∧
    risk_score n1 = 0.3%Q ∧ risk_score n2 = 0.3%Q ∧
    record_find (details n1) "total_amount1" = None ∧
    (spec_network_risk (1 + 1) (600000 + 600000) == 0.6)%Q ∧
    _detect_phone_networks db = Ok [m1; m2] ∧
    users m1 = [VStr "a"; VStr "b"] ∧ users m2 = [VStr "b"; VStr "a"] ∧
    (risk_score m1 == 0.6)%Q ∧ (risk_score m2 == 0.6)%Q.
Proof.
  eexists _, _, _, _, _. split; [by vm_compute|].
  split; [by vm_compute|].
  do 6 (split; [by vm_compute|]).
  split; [by vm_compute|]. by vm_compute.
Qed.

(** A load fails on the first CREATE that breaks a uniqueness constraint:
    with the schema in place, two user records with the same id. *)
Example load_duplicate_user_raises :
  load_data_from_firestore sample_clock
    [doc [("uid", VStr "a")]; doc [("uid", VStr "a")]] [] []
    (create_schema empty_database)
  = Raise ConstraintError.
Proof. by vm_compute. Qed.

(** ** What a load leaves in the database *)

Lemma stored_lookup_None params k : k ∉ params.*1 → stored params !! k = None.
Proof.
  intros Hk. unfold stored. apply not_elem_of_list_to_map_1.
  intros ([k' v] & -> & [_ Hin]%list_elem_of_filter)%list_elem_of_fmap.
  apply Hk, list_elem_of_fmap. by exists (k', v).
Qed.

Lemma create_node_Ok l params db db' :
  create_node l params db = Ok db' →
  db' = Database (nodes db ++ [Node l (stored params)]) (rels db) (constraints db).
Proof. unfold create_node. by destruct (_ && _); intros [= <-]. Qed.

Lemma foldl_preserved {A B C} (f : A → B → A) (g : A → C) (l : list B) (a : A) :
  (∀ a x, g (f a x) = g a) → g (foldl f a l) = g a.
Proof.
  intros Hf. revert a. induction l as [|x l IH]; intros a; [done|].
  cbn. by rewrite IH.
Qed.

Lemma create_relationships_nodes users_data policies_data claims_data db :
  nodes (_create_relationships users_data policies_data claims_data db) = nodes db.
Proof. unfold _create_relationships. by rewrite !(foldl_preserved _ nodes). Qed.

Lemma create_relationships_constraints users_data policies_data claims_data db :
  constraints (_create_relationships users_data policies_data claims_data db)
  = constraints db.
Proof. unfold _create_relationships. by rewrite !(foldl_preserved _ constraints). Qed.

Section LoaderFacts.
Variable now : nat → string.
Variable Q : node → Prop.

Lemma create_user_nodes_Forall t users_data db db' :
  (∀ t user, Q (Node User (stored (user_params now t user)))) →
  create_user_nodes now t users_data db = Ok db' →
  Forall Q (nodes db) → Forall Q (nodes db').
Proof.
  intros HQ. revert t db. induction users_data as [|user rest IH]; intros t db.
  - by intros [= <-].
  - cbn. intros (db1 & H1 & Hrest)%bind_Ok Hdb.
    apply create_node_Ok in H1 as ->.
    apply (IH _ _ Hrest). cbn. apply Forall_app. split; [done|].
    repeat constructor. apply HQ.
Qed.

Lemma create_nodes_Forall l (params : dict → list (string * value)) data db db' :
  (∀ d, Q (Node l (stored (params d)))) →
  create_nodes (λ d, create_node l (params d)) data db = Ok db' →
  Forall Q (nodes db) → Forall Q (nodes db').
Proof.
  intros HQ. revert db. induction data as [|d rest IH]; intros db.
  - by intros [= <-].
  - cbn. intros (db1 & H1 & Hrest)%bind_Ok Hdb.
    apply create_node_Ok in H1 as ->.
    apply (IH _ Hrest). cbn. apply Forall_app. split; [done|].
    repeat constructor. apply HQ.
Qed.

Lemma load_nodes_Forall users_data policies_data claims_data db0 db :
  (∀ t user, Q (Node User (stored (user_params now t user)))) →
  (∀ d, Q (Node Policy (stored (policy_params d)))) →
  (∀ d, Q (Node Claim (stored (claim_params d)))) →
  load_data_from_firestore now users_data policies_data claims_data db0 = Ok db →
  Forall Q (nodes db).
Proof.
  intros Hu Hp Hc. unfold load_data_from_firestore.
  intros (db1 & H1 & (db2 & H2 & (db3 & H3 & [= <-])%bind_Ok)%bind_Ok)%bind_Ok.
  rewrite create_relationships_nodes.
  apply (create_nodes_Forall _ _ _ _ _ Hc H3).
  apply (create_nodes_Forall _ _ _ _ _ Hp H2).
  apply (create_user_nodes_Forall _ _ _ _ Hu H1).
  constructor.
Qed.
End LoaderFacts.

Lemma load_users_unnamed now users_data policies_data claims_data db0 db :
  load_data_from_firestore now users_data policies_data claims_data db0 = Ok db →
  Forall unnamed_user (nodes db).
Proof.
  apply load_nodes_Forall.
  - intros t user _. cbn [node_props]. apply stored_lookup_None. cbn.
    rewrite !not_elem_of_cons. repeat split; try discriminate. apply not_elem_of_nil.
  - by intros d [=].
  - by intros d [=].
Qed.

Lemma unnamed_user_prop db i :
  Forall unnamed_user (nodes db) → has_label db i User = true →
  prop db i "name" = VNull.
Proof.
  intros Hall (n & Hn & Hl)%has_label_true.
  unfold prop, node_prop. rewrite Hn. cbn.
  rewrite Forall_lookup in Hall. by rewrite (Hall i n Hn Hl).
Qed.

(** ** C10: policy and claim networks name nobody *)

(** C10. On a database filled by [load_data_from_firestore], the policy
    detector and the claim detector both return, and every network either of
    them returns has [user_names = ["Unknown", "Unknown"]]: the queries read
    [u1.name] and [u2.name], a property no user node is created with. *)
Theorem policy_claim_networks_names_unknown (num_repr : Q → string)
    (now : nat → string) (users_data policies_data claims_data : list dict)
    (db0 db : database) :
  load_data_from_firestore now users_data policies_data claims_data db0 = Ok db →
  ∃ policy_networks claim_networks,
    _detect_policy_networks num_repr db = Ok policy_networks ∧
    _detect_claim_networks num_repr db = Ok claim_networks ∧
    ∀ n, n ∈ policy_networks ∨ n ∈ claim_networks →
         user_names n = [VStr "Unknown"; VStr "Unknown"].
Proof.
  intros Hload%load_users_unnamed.
  eexists _, _. split; [apply detect_policy_networks_eq|].
  split; [apply detect_claim_networks_eq|].
  intros n [Hn|Hn].
  - apply list_elem_of_fmap in Hn
      as ([[[[[u1 u2] p1] p2] claims1] claims2] & -> & Hg).
    apply elem_of_policy_groups in Hg as (c1 & c2 & Hr).
    apply elem_of_policy_rows in Hr as (H1 & H2 & _).
    apply elem_of_match_rel in H1 as (_ & H1 & _).
    apply elem_of_match_rel in H2 as (_ & H2 & _).
    cbn. by rewrite !unnamed_user_prop.
  - apply list_elem_of_fmap in Hn as ([[[[[u1 u2] c1] c2] p1] p2] & -> & Hr).
    apply elem_of_claim_rows in Hr as (H1 & H2 & _).
    apply elem_of_match_rel in H1 as (_ & H1 & _).
    apply elem_of_match_rel in H2 as (_ & H2 & _).
    cbn. by rewrite !unnamed_user_prop.
Qed.

Lemma policy_claim_networks_names_unknown_witness :
  ∃ policy_networks claim_networks,
    _detect_policy_networks sample_repr twin_database = Ok policy_networks ∧
    _detect_claim_networks sample_repr twin_database = Ok claim_networks ∧
    ∀ n, n ∈ policy_networks ∨ n ∈ claim_networks →
         user_names n = [VStr "Unknown"; VStr "Unknown"].
Proof.
  apply (policy_claim_networks_names_unknown sample_repr sample_clock
           twin_users twin_policies twin_claims empty_database twin_database).
  by vm_compute.
Defined.

(** ** First-wins selection *)

Lemma first_with_app {A} (P : A → Prop) `{∀ x, Decision (P x)} (l1 l2 : list A) :
  first_with P (l1 ++ l2)
  = match first_with P l1 with
    | Some x => Some x
    | None => first_with P l2
    end.
Proof. induction l1 as [|x l1 IH]; cbn; [done|]. by case_decide. Qed.

Lemma first_with_iff {A} (P1 P2 : A → Prop)
    `{∀ x, Decision (P1 x)} `{∀ x, Decision (P2 x)} (l : list A) :
  (∀ x, P1 x ↔ P2 x) → first_with P1 l = first_with P2 l.
Proof.
  intros HP. induction l as [|x l IH]; cbn; [done|].
  rewrite IH. destruct (decide (P1 x)) as [H1|H1], (decide (P2 x)) as [H2|H2];
    try done; by apply HP in H1 || apply HP in H2.
Qed.

Lemma first_with_Some {A} (P : A → Prop) `{∀ x, Decision (P x)} (l : list A) x :
  first_with P l = Some x → x ∈ l ∧ P x.
Proof.
  induction l as [|y l IH]; cbn; [done|]. case_decide.
  - intros [= ->]. split; [left|done].
  - intros [? ?]%IH. split; [by right|done].
Qed.

Lemma first_with_elem_of {A} (P : A → Prop) `{∀ x, Decision (P x)} (l : list A) x :
  x ∈ l → P x → is_Some (first_with P l).
Proof.
  induction l as [|y l IH]; [by intros ?%elem_of_nil|].
  intros [->|Hx]%elem_of_cons HP; cbn; case_decide; eauto. done.
Qed.

Lemma first_wins_sublist {A K} `{EqDecision K} (key : A → K) seen (l : list A) :
  first_wins key seen l `sublist_of` l.
Proof.
  revert seen. induction l as [|x l IH]; intros seen; cbn; [done|].
  case_decide; [by apply sublist_cons|by apply sublist_skip].
Qed.

(** Of all the elements with a given key, first-wins selection keeps exactly
    the first, unless the key was already seen. *)
Lemma first_wins_filter {A K} `{EqDecision K} (key : A → K) seen (l : list A) k :
  filter (λ x, key x = k) (first_wins key seen l)
  = if decide (k ∈ seen) then []
    else option_list (first_with (λ x, key x = k) l).
Proof.
  revert seen. induction l as [|x l IH]; intros seen; cbn.
  - by case_decide.
  - destruct (decide (key x ∈ seen)) as [Hx|Hx].
    + rewrite IH. destruct (decide (k ∈ seen)) as [Hk|Hk]; [done|].
      destruct (decide (key x = k)) as [Heq|]; [|done].
      by rewrite Heq in Hx.
    + rewrite filter_cons, IH.
      destruct (decide (key x = k)) as [Heq|Hne].
      * rewrite decide_True by (rewrite <-Heq; left).
        rewrite decide_False; [done|]. by rewrite <-Heq.
      * destruct (decide (k ∈ seen)) as [Hk|Hk].
        -- rewrite decide_True by (by right). done.
        -- rewrite decide_False; [done|].
           intros [Heq|?]%elem_of_cons; [by symmetry in Heq|done].
Qed.

(** ** Sorting user ids *)

Lemma py_insort_strings x s :
  is_string x → Forall is_string s →
  ∃ s', py_insort x s = Ok s' ∧ Forall is_string s'.
Proof.
  intros Hx Hs. induction Hs as [|y s Hy Hs IH]; cbn.
  - eexists; split; [done|]. by constructor.
  - destruct x as [|x|]; try done. destruct y as [|y|]; try done. cbn.
    destruct (String.ltb x y).
    + eexists; split; [done|]. by repeat constructor.
    + destruct IH as (s' & -> & Hs'). cbn.
      eexists; split; [done|]. by constructor.
Qed.

Lemma py_sorted_from_strings l s :
  Forall is_string s → Forall is_string l →
  ∃ k, foldl (λ acc x, s ← acc; py_insort x s) (Ok s) l = Ok k
       ∧ Forall is_string k.
Proof.
  revert s. induction l as [|x l IH]; intros s Hs Hl; cbn.
  - by exists s.
  - apply Forall_cons in Hl as [Hx Hl].
    destruct (py_insort_strings x s Hx Hs) as (s' & -> & Hs'). by apply IH.
Qed.

Lemma py_sorted_strings l :
  Forall is_string l → ∃ k, py_sorted l = Ok k ∧ Forall is_string k.
Proof. apply py_sorted_from_strings. constructor. Qed.

Lemma py_tuple_eq_strings k1 k2 :
  Forall is_string k1 → py_tuple_eq k1 k2 = true ↔ k1 = k2.
Proof.
  intros Hk. revert k2. induction Hk as [|x k1 Hx Hk IH]; intros [|y k2]; cbn;
    try done.
  destruct x as [|x|]; try done. rewrite andb_true_iff, IH. split.
  - intros [Hxy ->]. destruct y as [|y|]; try done.
    by apply String.eqb_eq in Hxy as ->.
  - intros [= <- <-]. split; [apply String.eqb_refl|done].
Qed.

Lemma existsb_py_tuple_eq k seen :
  Forall is_string k → existsb (py_tuple_eq k) seen = true ↔ k ∈ seen.
Proof.
  intros Hk. rewrite existsb_exists. split.
  - intros (k' & Hin%list_elem_of_In & ->%py_tuple_eq_strings); done.
  - intros Hin. exists k. split; [by apply list_elem_of_In|].
    by apply py_tuple_eq_strings.
Qed.

Lemma user_key_unordered n m a b :
  users n = [VStr a; VStr b] → users m = [VStr b; VStr a] → same_pair n m.
Proof.
  unfold same_pair, user_key. intros -> ->. cbn.
  unfold String.ltb. rewrite (String.compare_antisym a b).
  destruct (String.compare b a) eqn:E; cbn; try done.
  by apply String.compare_eq_iff in E as ->.
Qed.

(** ** Removing duplicate networks *)

Lemma remove_duplicates_loop_first_wins seen unique_networks networks :
  Forall string_users networks →
  remove_duplicates_loop seen unique_networks networks
  = Ok (unique_networks ++ first_wins user_key (Ok <$> seen) networks)%list.
Proof.
  intros Hn. revert seen unique_networks.
  induction Hn as [|n networks Hs Hn IH]; intros seen unique_networks; cbn.
  - by rewrite app_nil_r.
  - destruct (py_sorted_strings _ Hs) as (k & Hk & Hstr).
    assert (user_key n = Ok k) as Hkey by done.
    destruct (decide (user_key n ∈ Ok <$> seen)) as [Hin|Hnin];
      rewrite Hk; cbn; rewrite Hkey in *.
    + apply list_elem_of_fmap in Hin as (k' & [= <-] & Hin).
      apply (existsb_py_tuple_eq k seen Hstr) in Hin as ->. apply IH.
    + destruct (existsb (py_tuple_eq k) seen) eqn:E.
      * apply existsb_py_tuple_eq in E; [|done].
        destruct Hnin. apply list_elem_of_fmap. eauto.
      * rewrite (IH (k :: seen)). by rewrite <-app_assoc.
Qed.

Lemma remove_duplicate_networks_eq networks :
  Forall string_users networks →
  _remove_duplicate_networks networks = Ok (first_wins user_key [] networks).
Proof.
  intros Hn. unfold _remove_duplicate_networks.
  by rewrite remove_duplicates_loop_first_wins.
Qed.

(** ** C2: first-wins deduplication across the detectors *)

(** C2. When the three detectors return [phone], [policy] and [claim] (user
    ids being strings), [_detect_suspicious_networks] returns a sublist [out]
    of [phone ++ policy ++ claim] in which, for every network [n] found by a
    detector, exactly one network has the sorted user-id key of [n]: the first
    such network of the concatenation, hence one of [phone] if the phone
    detector found the pair, else one of [policy] if the policy detector did,
    else one of [claim]. The key does not depend on the order of the two ids. *)
Theorem dedup_first_detector_wins (num_repr : Q → string) (db : database)
    (phone policy claim : list network) :
  _detect_phone_networks db = Ok phone →
  _detect_policy_networks num_repr db = Ok policy →
  _detect_claim_networks num_repr db = Ok claim →
  Forall string_users (phone ++ policy ++ claim)%list →
  ∃ out,
    _detect_suspicious_networks num_repr db = Ok out ∧
    out `sublist_of` (phone ++ policy ++ claim)%list ∧
    (∀ n, n ∈ (phone ++ policy ++ claim)%list →
       ∃ kept,
         filter (same_pair n) out = [kept] ∧
         first_with (same_pair n) (phone ++ policy ++ claim)%list = Some kept ∧
         match first_with (same_pair n) phone with
         | Some x => kept = x
         | None =>
             match first_with (same_pair n) policy with
             | Some x => kept = x
             | None => first_with (same_pair n) claim = Some kept
             end
         end) ∧
    (∀ n m a b,
       users n = [VStr a; VStr b] → users m = [VStr b; VStr a] → same_pair n m).
Proof.
  intros Hphone Hpolicy Hclaim Hstr.
  exists (first_wins user_key [] (phone ++ policy ++ claim)%list).
  split; [|split; [|split]].
  - unfold _detect_suspicious_networks.
    rewrite Hphone, Hpolicy, Hclaim. cbn [mbind res_bind].
    rewrite app_nil_l, <-app_assoc. by apply remove_duplicate_networks_eq.
  - apply first_wins_sublist.
  - intros n Hn.
    destruct (first_with_elem_of (same_pair n) _ n Hn) as [kept Hkept]; [done|].
    exists kept. split; [|split; [done|]].
    + etrans; [|etrans;
        [exact (first_wins_filter user_key []
                  (phone ++ policy ++ claim)%list (user_key n))|]].
      * by apply list_filter_iff.
      * rewrite (first_with_iff _ (same_pair n)) by done. by rewrite Hkept.
    + rewrite !first_with_app in Hkept.
      destruct (first_with (same_pair n) phone); [congruence|].
      destruct (first_with (same_pair n) policy); [congruence|done].
  - apply user_key_unordered.
Qed.

Lemma dedup_first_detector_wins_witness :
  ∃ out,
    _detect_suspicious_networks sample_repr twin_database = Ok out ∧
    out `sublist_of`
      (twin_phone_networks ++ twin_policy_networks ++ twin_claim_networks)%list ∧
    (∀ n, n ∈ (twin_phone_networks ++ twin_policy_networks
               ++ twin_claim_networks)%list →
       ∃ kept,
         filter (same_pair n) out = [kept] ∧
         first_with (same_pair n)
           (twin_phone_networks ++ twin_policy_networks
            ++ twin_claim_networks)%list = Some kept ∧
         match first_with (same_pair n) twin_phone_networks with
         | Some x => kept = x
         | None =>
             match first_with (same_pair n) twin_policy_networks with
             | Some x => kept = x
             | None => first_with (same_pair n) twin_claim_networks = Some kept
             end
         end) ∧
    (∀ n m a b,
       users n = [VStr a; VStr b] → users m = [VStr b; VStr a] → same_pair n m).
Proof.
  apply (dedup_first_detector_wins sample_repr twin_database
           twin_phone_networks twin_policy_networks twin_claim_networks).
  - by vm_compute.
  - by vm_compute.
  - by vm_compute.
  - repeat constructor.
Defined.

(** ** Phone networks *)


Lemma elem_of_phone_rows db u1 u2 c1 c2 :
  (u1, u2, c1, c2) ∈ phone_rows db ↔
  ∃ p1 p2,
    (u1, p1, c1) ∈ owns_has_claim db ∧ (u2, p2, c2) ∈ owns_has_claim db ∧
    cy_holds
      (cy_and (cy_and (cy_eq (prop db u1 "phone") (prop db u2 "phone"))
                      (cy_neq (prop db u1 "userId") (prop db u2 "userId")))
              (cy_neq (prop db u1 "phone") (VStr ""))) = true.
Proof.
  unfold phone_rows. split.
  - intros ([[u1' p1] c1'] & Hin & H1)%list_elem_of_bind.
    apply list_elem_of_bind in Hin as ([[u2' p2] c2'] & Hin & H2).
    destruct (cy_holds _) eqn:Ew in Hin; [|by apply elem_of_nil in Hin].
    apply list_elem_of_singleton in Hin as [= -> -> -> ->]. eauto.
  - intros (p1 & p2 & H1 & H2 & Hw).
    apply list_elem_of_bind. exists (u1, p1, c1). split; [|done].
    apply list_elem_of_bind. exists (u2, p2, c2). split; [|done].
    rewrite Hw. left.
Qed.

Lemma cy_sum_from_numeric db k total claims :
  (∀ c, c ∈ claims → ∃ q, prop db c k = VNum q) →
  ∃ t, cy_sum_from db k (VNum total) claims = Ok (VNum t).
Proof.
  revert total. induction claims as [|c claims IH]; intros total Hnum; cbn.
  - eauto.
  - destruct (Hnum c) as [q ->]; [left|]. cbn.
    apply IH. intros c' Hc'. apply Hnum. by right.
Qed.



Lemma elem_of_phone_groups db u1 u2 claims1 claims2 :
  (u1, u2, claims1, claims2) ∈ phone_groups db →
  (∃ c1 c2, (u1, u2, c1, c2) ∈ phone_rows db) ∧
  (∀ c, c ∈ claims1 → ∃ u2' c2, (u1, u2', c, c2) ∈ phone_rows db) ∧
  (∀ c, c ∈ claims2 → ∃ u1' c1, (u1', u2, c1, c) ∈ phone_rows db).
Proof.
  unfold phone_groups. intros [_ Hin]%list_elem_of_filter.
  apply list_elem_of_fmap in Hin as ([k rows] & [= Hk -> ->] & Hin).
  apply elem_of_group_by in Hin as [([[[u1' u2'] c1] c2] & Hr & Hkey) ->].
  cbn in Hkey. subst k. injection Hkey as -> ->.
  split; [eauto|]. split.
  - intros c ([[[u1' u2'] c1'] c2'] & -> & [Hk Hin]%list_elem_of_filter)
      %elem_of_remove_dups%list_elem_of_fmap.
    injection Hk as -> ->. eauto.
  - intros c ([[[u1' u2'] c1'] c2'] & -> & [Hk Hin]%list_elem_of_filter)
      %elem_of_remove_dups%list_elem_of_fmap.
    injection Hk as -> ->. eauto.
Qed.

Lemma phone_groups_complete db u1 u2 c1 c2 :
  (u1, u2, c1, c2) ∈ phone_rows db →
  ∃ claims1 claims2, (u1, u2, claims1, claims2) ∈ phone_groups db.
Proof.
  intros Hr. unfold phone_groups.
  set (rows := filter (λ r : nat * nat * nat * nat,
                         (let '(u1, u2, _, _) := r in (u1, u2)) = (u1, u2))
                      (phone_rows db)).
  assert ((u1, u2, c1, c2) ∈ rows) as Hin by (by apply list_elem_of_filter).
  exists (remove_dups ((λ '(_, _, c1, _), c1) <$> rows)),
         (remove_dups ((λ '(_, _, _, c2), c2) <$> rows)).
  apply list_elem_of_filter. split.
  - split; apply Nat.neq_0_lt_0; intros Hlen%length_zero_iff_nil;
      (eapply elem_of_nil; rewrite <-Hlen;
       apply elem_of_remove_dups, list_elem_of_fmap; by exists (u1, u2, c1, c2)).
  - apply list_elem_of_fmap. exists ((u1, u2), rows). split; [done|].
    apply elem_of_group_by. split; [|done]. by exists (u1, u2, c1, c2).
Qed.



(** ** C5: two users sharing a phone *)

Section TwoUsers.
Variable num_repr : Q → string.
Variable db : database.
Variables ia ib : nat.
Variables a b phone_no : string.
Hypothesis only_two : ∀ i, has_label db i User = true → i = ia ∨ i = ib.
Hypothesis id_a : prop db ia "userId" = VStr a.
Hypothesis id_b : prop db ib "userId" = VStr b.
Hypothesis distinct : a ≠ b.






Hypothesis phone_a : prop db ia "phone" = VStr phone_no.
Hypothesis phone_b : prop db ib "phone" = VStr phone_no.
Hypothesis phone_set : phone_no ≠ "".
Variables pa ca pb cb : nat.
Hypothesis owns_a : (ia, pa) ∈ match_rel db User OWNS Policy.
Hypothesis claim_a : (pa, ca) ∈ match_rel db Policy HAS_CLAIM Claim.
Hypothesis owns_b : (ib, pb) ∈ match_rel db User OWNS Policy.
Hypothesis claim_b : (pb, cb) ∈ match_rel db Policy HAS_CLAIM Claim.
Hypothesis amounts :
  ∀ c, has_label db c Claim = true → ∃ q, prop db c "claimAmount" = VNum q.



End TwoUsers.




(** ** Loads at different times *)

Lemma same_node_prop n n' k :
  same_node n n' → k ≠ "createdAt" → node_prop n k = node_prop n' k.
Proof.
  intros [_ Hp] Hk. unfold node_prop.
  rewrite <-(lookup_delete_ne (node_props n) "createdAt" k) by done.
  rewrite <-(lookup_delete_ne (node_props n') "createdAt" k) by done.
  by rewrite Hp.
Qed.

Lemma same_graph_prop db db' i k :
  same_graph db db' → k ≠ "createdAt" → prop db i k = prop db' i k.
Proof.
  intros (Hn & _) Hk. unfold prop.
  rewrite Forall2_lookup in Hn. specialize (Hn i).
  destruct Hn as [n n' Hs|]; cbn; [by apply same_node_prop|done].
Qed.

Lemma same_graph_has_label db db' i l :
  same_graph db db' → has_label db i l = has_label db' i l.
Proof.
  intros (Hn & _). unfold has_label.
  rewrite Forall2_lookup in Hn. specialize (Hn i).
  destruct Hn as [n n' [Hl _]|]; cbn; [by rewrite Hl|done].
Qed.

Lemma same_graph_match_node db db' l k v :
  same_graph db db' → k ≠ "createdAt" →
  match_node db l k v = match_node db' l k v.
Proof.
  intros Hs Hk. unfold match_node.
  rewrite <-(Forall2_length _ _ _ (proj1 Hs)).
  apply list_filter_iff. intros i.
  by rewrite (same_graph_has_label db db'), (same_graph_prop db db').
Qed.

Lemma unique_key_not_created l : unique_key l ≠ "createdAt".
Proof. by destruct l. Qed.

Lemma same_graph_create_node db db' l params params' :
  same_graph db db' →
  same_node (Node l (stored params)) (Node l (stored params')) →
  res_rel same_graph (create_node l params db) (create_node l params' db').
Proof.
  intros Hs Hn. unfold create_node, key_taken.
  destruct Hs as (Hnodes & Hrels & Hcons). rewrite <-Hcons.
  rewrite <-(same_graph_match_node db db') by (done || apply unique_key_not_created).
  rewrite <-(same_node_prop _ _ _ Hn (unique_key_not_created l)).
  destruct (_ && _); cbn; [done|].
  split; [|done]. cbn. apply Forall2_app; [done|]. by constructor.
Qed.

Lemma res_rel_bind {A} (R : A → A → Prop) (m m' : res A) (f f' : A → res A) :
  res_rel R m m' →
  (∀ a a', R a a' → res_rel R (f a) (f' a')) →
  res_rel R (m ≫= f) (m' ≫= f').
Proof. destruct m, m'; cbn; auto; done. Qed.

Lemma stored_snoc_created params v v' :
  delete "createdAt" (stored (params ++ [("createdAt", v)]))
  = delete "createdAt" (stored (params ++ [("createdAt", v')])).
Proof.
  apply map_eq. intros k. destruct (decide (k = "createdAt")) as [->|Hk].
  - by rewrite !lookup_delete_eq.
  - rewrite !lookup_delete_ne by done. unfold stored.
    rewrite !filter_app, !list_to_map_app, !lookup_union.
    f_equal. transitivity (@None value); [|symmetry];
      (apply not_elem_of_list_to_map_1;
       intros ([k' w] & Heq & [_ Hin%list_elem_of_singleton]%list_elem_of_filter)
         %list_elem_of_fmap; injection Hin as -> ->; done).
Qed.

Lemma same_user_node now now' t user :
  same_node (Node User (stored (user_params now t user)))
            (Node User (stored (user_params now' t user))).
Proof.
  split; [done|]. cbn [node_props].
  apply (stored_snoc_created
           [("userId", dict_get user "uid" (dict_get user "id" (VStr "")));
            ("email", dict_get user "email" (VStr ""));
            ("phone", dict_get user "phone" (VStr ""));
            ("displayName", dict_get user "displayName" (VStr ""));
            ("insured_sex", dict_get user "insured_sex" (VStr ""));
            ("insured_age", dict_get user "insured_age" (VNum 0));
            ("insured_occupation", dict_get user "insured_occupation" (VStr ""));
            ("address", dict_get user "address" (VStr ""))]).
Qed.

Lemma same_graph_create_user_nodes now now' t users_data db db' :
  same_graph db db' →
  res_rel same_graph (create_user_nodes now t users_data db)
                     (create_user_nodes now' t users_data db').
Proof.
  revert t db db'. induction users_data as [|user rest IH]; intros t db db' Hs.
  - done.
  - cbn. apply res_rel_bind; [|by intros; apply IH].
    apply same_graph_create_node; [done|apply same_user_node].
Qed.

Lemma same_graph_create_nodes l (params : dict → list (string * value)) data db db' :
  same_graph db db' →
  res_rel same_graph (create_nodes (λ d, create_node l (params d)) data db)
                     (create_nodes (λ d, create_node l (params d)) data db').
Proof.
  revert db db'. induction data as [|d rest IH]; intros db db' Hs.
  - done.
  - cbn. apply res_rel_bind; [|by intros; apply IH].
    by apply same_graph_create_node.
Qed.

Lemma same_graph_create_rel la ka va t lb kb vb db db' :
  ka ≠ "createdAt" → kb ≠ "createdAt" → same_graph db db' →
  same_graph (create_rel la ka va t lb kb vb db) (create_rel la ka va t lb kb vb db').
Proof.
  intros Hka Hkb Hs. pose proof Hs as (Hn & Hr & Hc).
  unfold create_rel. split; [done|]. split; [|done]. cbn.
  by rewrite Hr, (same_graph_match_node db db' la ka va Hs Hka),
    (same_graph_match_node db db' lb kb vb Hs Hkb).
Qed.

Lemma same_graph_foldl {B} (f : database → B → database) (l : list B) db db' :
  (∀ d d' x, same_graph d d' → same_graph (f d x) (f d' x)) →
  same_graph db db' → same_graph (foldl f db l) (foldl f db' l).
Proof.
  intros Hf. revert db db'. induction l as [|x l IH]; intros db db' Hs; [done|].
  cbn. by apply IH, Hf.
Qed.

Lemma same_graph_create_relationships users_data policies_data claims_data db db' :
  same_graph db db' →
  same_graph (_create_relationships users_data policies_data claims_data db)
             (_create_relationships users_data policies_data claims_data db').
Proof.
  intros Hs. unfold _create_relationships.
  repeat (apply same_graph_foldl;
          [by intros; apply same_graph_create_rel|]).
  done.
Qed.

Lemma same_graph_load now now' users_data policies_data claims_data db db' :
  constraints db = constraints db' →
  res_rel same_graph
    (load_data_from_firestore now users_data policies_data claims_data db)
    (load_data_from_firestore now' users_data policies_data claims_data db').
Proof.
  intros Hc. unfold load_data_from_firestore.
  apply res_rel_bind.
  { apply same_graph_create_user_nodes. unfold detach_delete_all.
    split; [constructor|]. done. }
  intros db1 db1' H1. apply res_rel_bind.
  { by apply (same_graph_create_nodes Policy policy_params). }
  intros db2 db2' H2. apply res_rel_bind.
  { by apply (same_graph_create_nodes Claim claim_params). }
  intros db3 db3' H3. cbn. by apply same_graph_create_relationships.
Qed.

Lemma create_user_nodes_constraints now t users_data db db' :
  create_user_nodes now t users_data db = Ok db' →
  constraints db' = constraints db.
Proof.
  revert t db. induction users_data as [|user rest IH]; intros t db.
  - by intros [= <-].
  - cbn. intros (db1 & H1 & Hrest)%bind_Ok.
    apply create_node_Ok in H1 as ->. by rewrite (IH _ _ Hrest).
Qed.

Lemma create_nodes_constraints l (params : dict → list (string * value)) data db db' :
  create_nodes (λ d, create_node l (params d)) data db = Ok db' →
  constraints db' = constraints db.
Proof.
  revert db. induction data as [|d rest IH]; intros db.
  - by intros [= <-].
  - cbn. intros (db1 & H1 & Hrest)%bind_Ok.
    apply create_node_Ok in H1 as ->. by rewrite (IH _ Hrest).
Qed.

Lemma load_constraints now users_data policies_data claims_data db0 db :
  load_data_from_firestore now users_data policies_data claims_data db0 = Ok db →
  constraints db = constraints db0.
Proof.
  unfold load_data_from_firestore.
  intros (db1 & H1 & (db2 & H2 & (db3 & H3 & [= <-])%bind_Ok)%bind_Ok)%bind_Ok.
  rewrite create_relationships_constraints.
  rewrite (create_nodes_constraints _ _ _ _ _ H3).
  rewrite (create_nodes_constraints _ _ _ _ _ H2).
  by rewrite (create_user_nodes_constraints _ _ _ _ _ H1).
Qed.

Lemma same_graph_count_label db db' l :
  same_graph db db' → count_label db l = count_label db' l.
Proof.
  intros (Hn & _). unfold count_label.
  induction Hn as [|n n' ns ns' [Hl _] _ IH]; [done|].
  rewrite !filter_cons, Hl. by destruct (decide (node_label n' = l)); cbn; rewrite IH.
Qed.

(** ** C9: loading twice leaves the same counts *)

(** C9. If a load of [(users, policies, claims)] succeeds, a second load of
    the same input into the resulting database (at whatever later time)
    succeeds too and leaves as many nodes and relationships, in total, per
    label and per relationship type; the two graphs differ at most in the
    [createdAt] stamps of the user nodes. *)
Theorem load_twice_same_counts (now now' : nat → string)
    (users_data policies_data claims_data : list dict) (db0 db1 : database) :
  load_data_from_firestore now users_data policies_data claims_data db0 = Ok db1 →
  ∃ db2,
    load_data_from_firestore now' users_data policies_data claims_data db1
    = Ok db2 ∧
    length (nodes db2) = length (nodes db1) ∧
    length (rels db2) = length (rels db1) ∧
    (∀ l, count_label db2 l = count_label db1 l) ∧
    (∀ t, count_rel db2 t = count_rel db1 t) ∧
    same_graph db1 db2.
Proof.
  intros Hload.
  pose proof (same_graph_load now now' users_data policies_data claims_data
                db0 db1) as Hrel.
  rewrite Hload in Hrel.
  destruct (load_data_from_firestore now' _ _ _ db1) as [db2|e].
  - cbn in Hrel. specialize (Hrel (eq_sym (load_constraints _ _ _ _ _ _ Hload))).
    exists db2. split; [done|]. pose proof Hrel as (Hn & Hr & Hc).
    split; [symmetry; by eapply Forall2_length|].
    split; [by rewrite Hr|]. split; [|split; [|done]].
    + intros l. symmetry. by apply same_graph_count_label.
    + intros t. unfold count_rel. by rewrite Hr.
  - cbn in Hrel. destruct Hrel. symmetry. by eapply load_constraints.
Qed.

Lemma load_twice_same_counts_witness :
  ∃ db2,
    load_data_from_firestore (λ _, "2024-06-01T09:30:00")
      twin_users twin_policies twin_claims twin_database = Ok db2 ∧
    length (nodes db2) = length (nodes twin_database) ∧
    length (rels db2) = length (rels twin_database) ∧
    (∀ l, count_label db2 l = count_label twin_database l) ∧
    (∀ t, count_rel db2 t = count_rel twin_database t) ∧
    same_graph twin_database db2.
Proof.
  apply (load_twice_same_counts sample_clock (λ _, "2024-06-01T09:30:00")
           twin_users twin_policies twin_claims empty_database twin_database).
  by vm_compute.
Defined.

(** ** Collecting claims per user *)

Lemma elem_of_collect_claims rows u claims :
  (u, claims) ∈ collect_claims rows ↔
  (∃ c, (u, c) ∈ rows) ∧ claims = snd <$> filter (λ r, r.1 = u) rows.
Proof.
  unfold collect_claims. rewrite list_elem_of_fmap. split.
  - intros ([k rs] & [= -> ->] & [([u' c] & Hr & Hk) ->]%elem_of_group_by).
    cbn in *. subst. eauto.
  - intros [[c Hc] ->]. exists (u, filter (λ r, r.1 = u) rows). split; [done|].
    apply elem_of_group_by. split; [|done]. by exists (u, c).
Qed.


(** ** Sums *)

Lemma cy_sum_from_VNum db k total claims t :
  cy_sum_from db k (VNum total) claims = Ok (VNum t) →
  (t == total + qsum (prop_num db k <$> claims))%Q ∧
  ∀ c, c ∈ claims → ∃ q, prop db c k = VNum q.
Proof.
  revert total. induction claims as [|c claims IH]; intros total; cbn.
  - intros [= ->]. split; [unfold qsum; cbn; ring|]. by intros c ?%elem_of_nil.
  - unfold prop_num at 1. destruct (prop db c k) as [|s|q] eqn:E; cbn.
    + clear IH. intros H. exfalso. induction claims as [|c' claims IH]; [done|].
      cbn in H. by destruct (prop db c' k).
    + done.
    + intros [Ht Hall]%IH. split.
      * rewrite Ht, qadd_correct. unfold qsum. cbn. ring.
      * intros c' [->|?]%elem_of_cons; eauto.
Qed.

Lemma cy_sum_VNum db k claims t :
  cy_sum db k claims = Ok (VNum t) →
  (t == qsum (prop_num db k <$> claims))%Q ∧
  ∀ c, c ∈ claims → ∃ q, prop db c k = VNum q.
Proof.
  intros [Ht Hall]%cy_sum_from_VNum. split; [|done]. rewrite Ht. ring.
Qed.

(** ** Python equality and dict assignment *)






(** ** The loop of the risk scorer *)



Lemma mapM_Ok_elem_of_l {A B} (f : A → res B) (l : list A) (k : list B) (x : A) :
  mapM f l = Ok k → x ∈ l → ∃ y, y ∈ k ∧ f x = Ok y.
Proof.
  intros H%mapM_Ok_Forall2 Hx.
  induction H as [|x' y l k Hxy _ IH]; [by apply elem_of_nil in Hx|].
  apply elem_of_cons in Hx as [->|Hx].
  - exists y. split; [left|done].
  - destruct (IH Hx) as (y' & ? & ?). exists y'. split; [by right|done].
Qed.


Lemma risk_scores_loop_total risk_scores result :
  (∀ r, r ∈ result → ∃ ke, risk_entry r = Ok ke) →
  ∃ scores, risk_scores_loop risk_scores result = Ok scores.
Proof.
  revert risk_scores. induction result as [|r rest IH]; intros acc Hres; cbn.
  - eauto.
  - destruct (Hres r) as [[k e] ->]; [left|]. cbn.
    apply IH. intros r' Hr'. apply Hres. by right.
Qed.

(** ** The user risk formula *)





(** ** C4: the user risk score *)




(** ** Ordering records *)

Lemma cy_order_le_total a b : cy_order_le a b = true ∨ cy_order_le b a = true.
Proof.
  destruct a as [|x|x], b as [|y|y]; cbn; auto.
  - apply String.leb_total.
  - destruct (Qlt_le_dec y x) as [H|H].
    + right. apply Qle_bool_iff. by apply Qlt_le_weak.
    + left. by apply Qle_bool_iff.
Qed.

#[global] Instance desc_by_total col : Total (desc_by col).
Proof. intros r1 r2. unfold desc_by. destruct (cy_order_le_total
  (record_get r2 col VNull) (record_get r1 col VNull)); auto. Qed.

Lemma Sorted_take {A} (R : relation A) n (l : list A) :
  Sorted R l → Sorted R (take n l).
Proof.
  intros Hs. revert n. induction Hs as [|x l Hs IH Hhd]; intros [|n]; cbn;
    try constructor.
  - apply IH.
  - destruct Hhd as [|y l' Hxy]; destruct n; cbn; by constructor.
Qed.

Lemma Sorted_fmap_key {A B} (R : relation A) (R' : relation B) (f : A → B) l :
  (∀ x y, x ∈ l → y ∈ l → R x y → R' (f x) (f y)) →
  Sorted R l → Sorted R' (f <$> l).
Proof.
  intros Hf Hs. induction Hs as [|x l Hs IH Hhd]; cbn; [constructor|].
  constructor.
  - apply IH. intros y z Hy Hz. apply Hf; by right.
  - destruct Hhd as [|y l' Hxy]; cbn; constructor.
    apply Hf; [left|right; left|done].
Qed.

Lemma mapM_Ok_fmap_default {A B} (f : A → res B) (g : A → B) (l : list A) k :
  (∀ x y, f x = Ok y → g x = y) → mapM f l = Ok k → k = g <$> l.
Proof.
  intros Hg H%mapM_Ok_Forall2.
  induction H as [|x y l k Hxy _ IH]; [done|]. cbn. by rewrite (Hg x y Hxy), IH.
Qed.

(** ** High-fraud-score users *)

Lemma high_fraud_entry_of_Ok r e : high_fraud_entry r = Ok e → high_fraud_entry_of r = e.
Proof. unfold high_fraud_entry_of. by intros ->. Qed.

Lemma high_fraud_entry_avg r e :
  high_fraud_entry r = Ok e →
  record_get e "avg_fraud_score" VNull = record_get r "avg_fraud_score" VNull.
Proof.
  unfold high_fraud_entry, record_item, record_get. intros H.
  destruct (record_find r "u.userId"); [|done].
  destruct (record_find r "u.email"); [|done].
  destruct (record_find r "u.phone"); [|done].
  destruct (record_find r "claim_count"); [|done].
  destruct (record_find r "avg_fraud_score"); [|done].
  destruct (record_find r "total_amount"); [|done].
  cbn in H. by injection H as <-.
Qed.

Lemma elem_of_high_fraud_groups db u claims :
  (u, claims) ∈ high_fraud_groups db ↔
  has_label db u User = true ∧ claims = hot_claims_of db u ∧ claims ≠ [].
Proof.
  unfold high_fraud_groups, hot_claims_of.
  rewrite list_elem_of_filter, elem_of_collect_claims. split.
  - intros [Hlen [[c Hc] ->]].
    apply list_elem_of_filter in Hc as [_ Hc].
    apply elem_of_match_rel in Hc as (_ & ? & _).
    split; [done|]. split; [done|].
    intros Hnil. rewrite Hnil in Hlen. cbn in Hlen. lia.
  - intros (_ & -> & Hne). split.
    + destruct (snd <$> _); [done|cbn; lia].
    + split; [|done].
      match goal with |- ∃ _, _ ∈ ?rows =>
        destruct (filter (λ r, r.1 = u) rows) as [|[u' c] rs] eqn:E; [done|];
        assert ((u', c) ∈ filter (λ r, r.1 = u) rows) as Hin by (rewrite E; left)
      end.
      apply list_elem_of_filter in Hin as [Hu Hin]. cbn in Hu. subst u'. eauto.
Qed.

Lemma hot_claims_numeric db u c :
  c ∈ hot_claims_of db u → ∃ q, prop db c "fraudScore" = VNum q.
Proof.
  unfold hot_claims_of.
  intros ([u' c'] & -> & [_ [Hhot _]%list_elem_of_filter]%list_elem_of_filter)
    %list_elem_of_fmap.
  cbn. destruct (prop db c' "fraudScore"); try done. eauto.
Qed.

Lemma high_fraud_group_entry db u r :
  hot_claims_of db u ≠ [] →
  high_fraud_record db (u, hot_claims_of db u) = Ok r →
  ∃ e, high_fraud_entry r = Ok e ∧ describes db u (hot_claims_of db u) e.
Proof.
  intros Hne Hr. unfold high_fraud_record in Hr.
  assert (∃ total, cy_sum db "fraudScore" (hot_claims_of db u) = Ok (VNum total))
    as [total Htotal]
    by (apply cy_sum_from_numeric; intros c; apply hot_claims_numeric).
  rewrite Htotal in Hr. cbn [mbind res_bind] in Hr.
  destruct (length (hot_claims_of db u)) as [|m] eqn:Elen;
    [by apply length_zero_iff_nil in Elen|].
  cbn [cy_div_size mbind res_bind] in Hr.
  destruct (cy_sum db "claimAmount" (hot_claims_of db u)) as [ta|] eqn:Ea; [|done].
  injection Hr as <-. eexists. split; [reflexivity|].
  unfold describes. cbn. unfold cy_size. rewrite Elen.
  repeat (split; [done|]). split.
  - eexists. split; [done|]. unfold qdiv. rewrite Qred_correct.
    apply cy_sum_VNum in Htotal as [-> _]. done.
  - by exists ta.
Qed.

Lemma Forall2_impl_elem_of {A B} (P Q : A → B → Prop) l k :
  Forall2 P l k → (∀ x y, x ∈ l → y ∈ k → P x y → Q x y) → Forall2 Q l k.
Proof.
  intros H. induction H as [|x y l k Hxy _ IH]; intros HPQ; constructor.
  - apply HPQ; [left|left|done].
  - apply IH. intros x' y' Hx' Hy'. apply HPQ; by right.
Qed.

(** ** C8: the high-fraud-score indicator *)

(** C8 (as amended). When the indicator returns, its entries are the first 20
    of a ranking, descending by average fraud score, of one entry per user
    node with at least one filed claim whose fraudScore exceeds 0.7; each
    entry carries the number, the average fraudScore and the total amount of
    that user's claims with fraudScore above 0.7 (not of all its claims). *)
Theorem high_fraud_users_indicator (db : database) (entries : list pydict) :
  high_fraud_indicator db = Ok entries →
  length entries = (20 `min` length (high_fraud_groups db))%nat ∧
  (∀ u claims,
     (u, claims) ∈ high_fraud_groups db ↔
     has_label db u User = true ∧ claims = hot_claims_of db u ∧ claims ≠ []) ∧
  (∀ e, e ∈ entries →
     ∃ u, has_label db u User = true ∧ hot_claims_of db u ≠ [] ∧
          describes db u (hot_claims_of db u) e) ∧
  Sorted (desc_by "avg_fraud_score") entries ∧
  (∃ all ranked,
     Forall2 (λ g e, high_fraud_record db g ≫= high_fraud_entry = Ok e)
             (high_fraud_groups db) all ∧
     ranked ≡ₚ all ∧
     Sorted (desc_by "avg_fraud_score") ranked ∧
     entries = take 20 ranked).
Proof.
  unfold high_fraud_indicator, high_fraud_query.
  intros (recs & (all_recs & Hall & [= <-])%bind_Ok & Hent)%bind_Ok.
  apply (mapM_Ok_fmap_default _ high_fraud_entry_of _ _ high_fraud_entry_of_Ok)
    in Hent.
  set (ranked_recs := order_by_desc "avg_fraud_score" all_recs) in *.
  assert (ranked_recs ≡ₚ all_recs) as Hperm by apply merge_sort_Permutation.
  assert (Sorted (desc_by "avg_fraud_score") ranked_recs) as Hsorted
    by apply (Sorted_merge_sort _).
  assert (∀ r, r ∈ all_recs →
               ∃ u e, (u, hot_claims_of db u) ∈ high_fraud_groups db ∧
                      high_fraud_record db (u, hot_claims_of db u) = Ok r ∧
                      high_fraud_entry r = Ok e ∧
                      describes db u (hot_claims_of db u) e) as Hshape.
  { intros r Hr.
    destruct (mapM_Ok_elem_of _ _ _ _ Hall Hr) as ([u claims] & Hg & Hrec).
    pose proof Hg as (Hu & -> & Hne)%elem_of_high_fraud_groups.
    destruct (high_fraud_group_entry db u r Hne Hrec) as (e & He & Hd).
    by exists u, e. }
  assert (∀ r1 r2, r1 ∈ ranked_recs → r2 ∈ ranked_recs →
                   desc_by "avg_fraud_score" r1 r2 →
                   desc_by "avg_fraud_score" (high_fraud_entry_of r1)
                                             (high_fraud_entry_of r2)) as Hkey.
  { intros r1 r2 H1 H2. rewrite Hperm in H1, H2.
    destruct (Hshape r1 H1) as (_ & e1 & _ & _ & He1 & _).
    destruct (Hshape r2 H2) as (_ & e2 & _ & _ & He2 & _).
    unfold desc_by.
    rewrite (high_fraud_entry_of_Ok _ _ He1), (high_fraud_entry_of_Ok _ _ He2).
    by rewrite (high_fraud_entry_avg _ _ He1), (high_fraud_entry_avg _ _ He2). }
  subst entries. split; [|split; [|split; [|split]]].
  - rewrite length_fmap, length_take, Hperm.
    apply mapM_Ok_Forall2, Forall2_length in Hall. by rewrite Hall.
  - apply elem_of_high_fraud_groups.
  - intros e (r & -> & Hr)%list_elem_of_fmap.
    apply elem_of_take in Hr as (i & Hr%list_elem_of_lookup_2 & _).
    rewrite Hperm in Hr.
    destruct (Hshape r Hr) as (u & e & (Hu & _ & Hne)%elem_of_high_fraud_groups
                               & _ & He & Hd).
    exists u. by rewrite (high_fraud_entry_of_Ok _ _ He).
  - apply (Sorted_fmap_key (desc_by "avg_fraud_score")); [|by apply Sorted_take].
    intros r1 r2 (i & H1%list_elem_of_lookup_2 & _)%elem_of_take
      (j & H2%list_elem_of_lookup_2 & _)%elem_of_take. by apply Hkey.
  - exists (high_fraud_entry_of <$> all_recs), (high_fraud_entry_of <$> ranked_recs).
    split; [|split; [by rewrite Hperm|split; [|by rewrite fmap_take]]].
    + apply Forall2_fmap_r.
      apply (Forall2_impl_elem_of _ _ _ _ (proj1 (mapM_Ok_Forall2 _ _ _) Hall)).
      intros g r _ Hr Hrec. rewrite Hrec. cbn.
      destruct (Hshape r Hr) as (_ & e & _ & _ & He & _).
      by rewrite (high_fraud_entry_of_Ok _ _ He).
    + by apply (Sorted_fmap_key (desc_by "avg_fraud_score")).
Qed.

Lemma high_fraud_users_indicator_witness :
  length mixed_entries = (20 `min` length (high_fraud_groups mixed_database))%nat ∧
  (∀ u claims,
     (u, claims) ∈ high_fraud_groups mixed_database ↔
     has_label mixed_database u User = true ∧
     claims = hot_claims_of mixed_database u ∧ claims ≠ []) ∧
  (∀ e, e ∈ mixed_entries →
     ∃ u, has_label mixed_database u User = true ∧
          hot_claims_of mixed_database u ≠ [] ∧
          describes mixed_database u (hot_claims_of mixed_database u) e) ∧
  Sorted (desc_by "avg_fraud_score") mixed_entries ∧
  (∃ all ranked,
     Forall2 (λ g e, high_fraud_record mixed_database g ≫= high_fraud_entry = Ok e)
             (high_fraud_groups mixed_database) all ∧
     ranked ≡ₚ all ∧
     Sorted (desc_by "avg_fraud_score") ranked ∧
     mixed_entries = take 20 ranked).
Proof.
  apply (high_fraud_users_indicator mixed_database mixed_entries). by vm_compute.
Defined.

(** C8 (counterexample). A user has filed two claims, of 1000 scored 0.9 and
    of 500 scored 0.1. Its entry carries claim count 1, average score 0.9 and
    total 1000: the figures of the one claim above 0.7, not the user's claim
    count 2, average 0.5 and total 1500. *)
Lemma high_fraud_entry_counterexample :
  ∃ e,
    high_fraud_indicator mixed_database = Ok [e] ∧
    record_find e "userId" = Some (prop mixed_database 0 "userId") ∧
    record_find e "claim_count" = Some (VNum 1) ∧
    length (claims_of mixed_database 0) = 2%nat ∧
    record_find e "avg_fraud_score" = Some (VNum 0.9) ∧
    (qsum (prop_num mixed_database "fraudScore" <$> claims_of mixed_database 0)
     / 2 == 0.5)%Q ∧
    record_find e "total_amount" = Some (VNum 1000) ∧
    (qsum (prop_num mixed_database "claimAmount" <$> claims_of mixed_database 0)
     == 1500)%Q.
Proof.
  eexists. split; [by vm_compute|]. by vm_compute.
Qed.

(** ** Rapid filers: the fallback query *)











(** ** C7: the rapid-filer fallback *)

Section RapidFilers.
Variable temporal : Type.
Variable cy_date : string → option temporal.
Variable cy_datetime : string → option temporal.
Variable temporal_gt : temporal → temporal → option bool.
Variable temporal_lt : temporal → temporal → option bool.
Variable duration_days : temporal → temporal → Q.

Local Abbreviation analyze :=
  (_analyze_fraud_indicators temporal cy_date cy_datetime
     temporal_gt temporal_lt duration_days).
Local Abbreviation primary_query :=
  (rapid_filer_query temporal cy_date cy_datetime
     temporal_gt temporal_lt duration_days).





End RapidFilers.



(** ** The loader, loop by loop *)

Lemma database_eta db : Database (nodes db) (rels db) (constraints db) = db.
Proof. by destruct db. Qed.

Lemma create_user_nodes_closed now t users_data db db' :
  create_user_nodes now t users_data db = Ok db' →
  db' = Database
          (nodes db ++ imap (λ i user, Node User (stored (user_params now (t + i) user)))
                            users_data)
          (rels db) (constraints db).
Proof.
  revert t db. induction users_data as [|user rest IH]; intros t db.
  - intros [= <-]. cbn [imap]. by rewrite app_nil_r, database_eta.
  - cbn [create_user_nodes]. intros (db1 & H1 & Hrest)%bind_Ok.
    apply create_node_Ok in H1 as ->. rewrite (IH _ _ Hrest). clear IH Hrest.
    cbn [nodes rels constraints imap]. rewrite <-app_assoc, Nat.add_0_r.
    f_equal. f_equal. cbn [app]. f_equal.
    apply imap_ext. intros i user' _. unfold compose.
    by rewrite Nat.add_succ_r.
Qed.

Lemma create_nodes_closed l (params : dict → list (string * value)) data db db' :
  create_nodes (λ d, create_node l (params d)) data db = Ok db' →
  db' = Database (nodes db ++ ((λ d, Node l (stored (params d))) <$> data))
                 (rels db) (constraints db).
Proof.
  revert db. induction data as [|d rest IH]; intros db.
  - intros [= <-]. cbn [fmap list_fmap]. by rewrite app_nil_r, database_eta.
  - cbn [create_nodes]. intros (db1 & H1 & Hrest)%bind_Ok.
    apply create_node_Ok in H1 as ->. rewrite (IH _ Hrest). clear IH Hrest.
    cbn [nodes rels constraints]. rewrite <-app_assoc. reflexivity.
Qed.

Lemma match_node_nodes db db' l k v :
  nodes db' = nodes db → match_node db' l k v = match_node db l k v.
Proof.
  intros H. unfold match_node, has_label, prop. by rewrite H.
Qed.

Lemma links_nodes db db' la ka fa t lb kb fb data :
  nodes db' = nodes db →
  links db' la ka fa t lb kb fb data = links db la ka fa t lb kb fb data.
Proof.
  intros H. unfold links. induction data as [|d data IH]; [done|].
  cbn. by rewrite IH, !(match_node_nodes db db').
Qed.

Lemma foldl_create_rel la ka fa t lb kb fb data db :
  foldl (λ db d, create_rel la ka (dict_get d fa (VStr "")) t
                            lb kb (dict_get d fb (VStr "")) db) db data
  = Database (nodes db) (rels db ++ links db la ka fa t lb kb fb data)
             (constraints db).
Proof.
  revert db. induction data as [|d data IH]; intros db.
  - cbn [foldl]. unfold links. cbn [mbind list_bind].
    by rewrite app_nil_r, database_eta.
  - cbn [foldl]. rewrite IH. unfold create_rel at 2 3.
    cbn [nodes rels constraints]. rewrite <-app_assoc. reflexivity.
Qed.

Lemma create_relationships_rels users_data policies_data claims_data db :
  rels (_create_relationships users_data policies_data claims_data db)
  = (rels db
     ++ links db User "userId" "userId" OWNS Policy "policyId" "policyId" policies_data
     ++ links db Policy "policyId" "policyId" HAS_CLAIM Claim "claimId" "claimId"
              claims_data
     ++ links db User "userId" "userId" FILED Claim "claimId" "claimId" claims_data)%list.
Proof.
  unfold _create_relationships. rewrite !foldl_create_rel.
  cbn [nodes rels constraints].
  rewrite <-!app_assoc. by rewrite !(links_nodes db (Database _ _ _)).
Qed.

(** What a successful load leaves: the nodes of the three loops in order,
    the relationships of the three relationship loops in order, and the
    constraints it found. *)
Lemma load_closed now users_data policies_data claims_data db0 db :
  load_data_from_firestore now users_data policies_data claims_data db0 = Ok db →
  nodes db = (user_nodes now users_data ++ policy_nodes policies_data
              ++ claim_nodes claims_data)%list ∧
  rels db
  = (links db User "userId" "userId" OWNS Policy "policyId" "policyId" policies_data
     ++ links db Policy "policyId" "policyId" HAS_CLAIM Claim "claimId" "claimId"
              claims_data
     ++ links db User "userId" "userId" FILED Claim "claimId" "claimId" claims_data)%list ∧
  constraints db = constraints db0.
Proof.
  unfold load_data_from_firestore.
  intros (db1 & H1 & (db2 & H2 & (db3 & H3 & [= <-])%bind_Ok)%bind_Ok)%bind_Ok.
  apply create_user_nodes_closed in H1 as ->.
  apply create_nodes_closed in H2 as ->.
  apply create_nodes_closed in H3 as ->.
  rewrite create_relationships_nodes, create_relationships_rels,
    create_relationships_constraints.
  cbn [nodes rels constraints]. split_and!; [by rewrite <-app_assoc| |done].
  rewrite app_nil_l.
  by rewrite !(links_nodes (Database _ _ _) (_create_relationships _ _ _ _))
    by (by rewrite create_relationships_nodes).
Qed.

(** ** Nodes of a loaded database *)

Lemma count_uniform (l l' : label) (ns : list node) :
  Forall (λ n, node_label n = l) ns →
  length (filter (λ n, node_label n = l') ns)
  = if decide (l = l') then length ns else 0%nat.
Proof.
  induction 1 as [|n ns Hn _ IH]; [by destruct (decide _)|].
  rewrite filter_cons. destruct (decide (l = l')) as [<-|Hne].
  - rewrite decide_True by done. cbn. by rewrite IH.
  - rewrite decide_False by congruence. done.
Qed.

Lemma user_nodes_label now users_data :
  Forall (λ n, node_label n = User) (user_nodes now users_data).
Proof.
  apply Forall_lookup. intros i n. unfold user_nodes.
  rewrite list_lookup_imap. by intros (user & _ & ->)%fmap_Some.
Qed.

Lemma policy_nodes_label policies_data :
  Forall (λ n, node_label n = Policy) (policy_nodes policies_data).
Proof. apply Forall_fmap, Forall_true. done. Qed.

Lemma claim_nodes_label claims_data :
  Forall (λ n, node_label n = Claim) (claim_nodes claims_data).
Proof. apply Forall_fmap, Forall_true. done. Qed.

(** X1. A load that returns leaves exactly one node per input document: as
    many User nodes as user documents, as many Policy nodes as policy
    documents, as many Claim nodes as claim documents, and no other node,
    whatever the database held before. *)
Theorem load_node_counts (now : nat → string)
    (users_data policies_data claims_data : list dict) (db0 db : database) :
  load_data_from_firestore now users_data policies_data claims_data db0 = Ok db →
  count_label db User = length users_data ∧
  count_label db Policy = length policies_data ∧
  count_label db Claim = length claims_data ∧
  length (nodes db)
  = (length users_data + length policies_data + length claims_data)%nat.
Proof.
  intros (Hn & _ & _)%load_closed. unfold count_label. rewrite Hn.
  rewrite !filter_app, !length_app.
  rewrite !(count_uniform User _ _ (user_nodes_label now users_data)).
  rewrite !(count_uniform Policy _ _ (policy_nodes_label policies_data)).
  rewrite !(count_uniform Claim _ _ (claim_nodes_label claims_data)).
  repeat case_decide; try congruence; [].
  unfold user_nodes, policy_nodes, claim_nodes.
  rewrite length_imap, !length_fmap. repeat split; lia.
Qed.

(** The sample of one user loads. *)
Lemma solo_load :
  load_data_from_firestore sample_clock solo_users solo_policies solo_claims
    (create_schema empty_database) = Ok solo_database.
Proof. by vm_compute. Qed.

Lemma load_node_counts_witness :
  count_label solo_database User = length solo_users ∧
  count_label solo_database Policy = length solo_policies ∧
  count_label solo_database Claim = length solo_claims ∧
  length (nodes solo_database)
  = (length solo_users + length solo_policies + length solo_claims)%nat.
Proof.
  apply (load_node_counts sample_clock solo_users solo_policies solo_claims
           (create_schema empty_database) solo_database).
  exact solo_load.
Defined.

(** ** Reading back what was written *)

Lemma stored_round_trip params k v :
  NoDup params.*1 → (k, v) ∈ params → default VNull (stored params !! k) = v.
Proof.
  intros Hnd Hin. unfold stored.
  assert (NoDup (filter (λ kv : string * value, kv.2 ≠ VNull) params).*1) as Hnd'.
  { eapply sublist_NoDup; [done|]. apply fmap_sublist, sublist_filter. }
  destruct (decide (v = VNull)) as [->|Hv].
  - destruct (list_to_map _ !! k) as [v'|] eqn:E; [|done]. cbn.
    apply elem_of_list_to_map in E; [|done].
    apply list_elem_of_filter in E as [Hv' E]. cbn in Hv'.
    destruct Hv'.
    pose proof (elem_of_list_to_map_1 (M:=gmap string) params k VNull Hnd Hin) as H1.
    pose proof (elem_of_list_to_map_1 (M:=gmap string) params k v' Hnd E) as H2.
    congruence.
  - rewrite (elem_of_list_to_map_1 _ k v); [done..|].
    by apply list_elem_of_filter.
Qed.

Lemma user_params_NoDup now t user : NoDup (user_params now t user).*1.
Proof. apply (bool_decide_unpack _). by vm_compute. Qed.

Lemma policy_params_NoDup policy : NoDup (policy_params policy).*1.
Proof. apply (bool_decide_unpack _). by vm_compute. Qed.

Lemma claim_params_NoDup claim : NoDup (claim_params claim).*1.
Proof. apply (bool_decide_unpack _). by vm_compute. Qed.

Lemma lookup_node db i n l k :
  nodes db !! i = Some n → node_label n = l →
  has_label db i l = true ∧ prop db i k = node_prop n k.
Proof.
  intros Hn Hl. split.
  - apply has_label_true. eauto.
  - unfold prop. by rewrite Hn.
Qed.

(** Where a load puts each document. *)
Lemma load_user_node now users_data policies_data claims_data db0 db i user :
  load_data_from_firestore now users_data policies_data claims_data db0 = Ok db →
  users_data !! i = Some user →
  nodes db !! i = Some (Node User (stored (user_params now i user))).
Proof.
  intros (Hn & _ & _)%load_closed Hi.
  rewrite Hn, lookup_app_l
    by (unfold user_nodes; rewrite length_imap; by eapply lookup_lt_Some).
  unfold user_nodes. by rewrite list_lookup_imap, Hi.
Qed.

Lemma load_policy_node now users_data policies_data claims_data db0 db i policy :
  load_data_from_firestore now users_data policies_data claims_data db0 = Ok db →
  policies_data !! i = Some policy →
  nodes db !! (length users_data + i)%nat
  = Some (Node Policy (stored (policy_params policy))).
Proof.
  intros (Hn & _ & _)%load_closed Hi.
  assert (length (user_nodes now users_data) = length users_data) as Hlu
    by apply length_imap.
  rewrite Hn, lookup_app_r by lia. rewrite Hlu.
  replace (length users_data + i - length users_data)%nat with i by lia.
  rewrite lookup_app_l
    by (unfold policy_nodes; rewrite length_fmap; by eapply lookup_lt_Some).
  unfold policy_nodes. by rewrite list_lookup_fmap, Hi.
Qed.

Lemma load_claim_node now users_data policies_data claims_data db0 db i claim :
  load_data_from_firestore now users_data policies_data claims_data db0 = Ok db →
  claims_data !! i = Some claim →
  nodes db !! (length users_data + length policies_data + i)%nat
  = Some (Node Claim (stored (claim_params claim))).
Proof.
  intros (Hn & _ & _)%load_closed Hi.
  assert (length (user_nodes now users_data) = length users_data) as Hlu
    by apply length_imap.
  assert (length (policy_nodes policies_data) = length policies_data) as Hlp
    by apply length_fmap.
  rewrite Hn, lookup_app_r by lia. rewrite Hlu.
  rewrite lookup_app_r by lia. rewrite Hlp.
  replace (length users_data + length policies_data + i
           - length users_data - length policies_data)%nat with i by lia.
  unfold claim_nodes. by rewrite list_lookup_fmap, Hi.
Qed.

(** X2. Load, then read: after a load that returns, the [i]-th user document
    is node [i], the [i]-th policy document is node [|users| + i], the
    [i]-th claim document is node [|users| + |policies| + i], each with its
    label, and every property the CREATE statement binds reads back the bound
    value (the document's field, or the default of [.get]); a field bound to
    [None] reads back as null. *)
Theorem load_round_trip (now : nat → string)
    (users_data policies_data claims_data : list dict) (db0 db : database) :
  load_data_from_firestore now users_data policies_data claims_data db0 = Ok db →
  (∀ i user, users_data !! i = Some user →
     has_label db i User = true ∧
     ∀ k v, (k, v) ∈ user_params now i user → prop db i k = v) ∧
  (∀ i policy, policies_data !! i = Some policy →
     has_label db (length users_data + i) Policy = true ∧
     ∀ k v, (k, v) ∈ policy_params policy →
            prop db (length users_data + i) k = v) ∧
  (∀ i claim, claims_data !! i = Some claim →
     has_label db (length users_data + length policies_data + i) Claim = true ∧
     ∀ k v, (k, v) ∈ claim_params claim →
            prop db (length users_data + length policies_data + i) k = v).
Proof.
  intros Hload. split_and!.
  - intros i user Hi.
    pose proof (load_user_node _ _ _ _ _ _ _ _ Hload Hi) as Hnode.
    split; [apply has_label_true; by eexists|].
    intros k v Hkv. rewrite (proj2 (lookup_node db i _ User k Hnode eq_refl)).
    apply stored_round_trip; [apply user_params_NoDup|done].
  - intros i policy Hi.
    pose proof (load_policy_node _ _ _ _ _ _ _ _ Hload Hi) as Hnode.
    split; [apply has_label_true; by eexists|].
    intros k v Hkv. rewrite (proj2 (lookup_node db _ _ Policy k Hnode eq_refl)).
    apply stored_round_trip; [apply policy_params_NoDup|done].
  - intros i claim Hi.
    pose proof (load_claim_node _ _ _ _ _ _ _ _ Hload Hi) as Hnode.
    split; [apply has_label_true; by eexists|].
    intros k v Hkv. rewrite (proj2 (lookup_node db _ _ Claim k Hnode eq_refl)).
    apply stored_round_trip; [apply claim_params_NoDup|done].
Qed.

Lemma load_round_trip_witness :
  (∀ i user, solo_users !! i = Some user →
     has_label solo_database i User = true ∧
     ∀ k v, (k, v) ∈ user_params sample_clock i user →
            prop solo_database i k = v) ∧
  (∀ i policy, solo_policies !! i = Some policy →
     has_label solo_database (length solo_users + i) Policy = true ∧
     ∀ k v, (k, v) ∈ policy_params policy →
            prop solo_database (length solo_users + i) k = v) ∧
  (∀ i claim, solo_claims !! i = Some claim →
     has_label solo_database (length solo_users + length solo_policies + i) Claim
     = true ∧
     ∀ k v, (k, v) ∈ claim_params claim →
            prop solo_database (length solo_users + length solo_policies + i) k = v).
Proof.
  apply (load_round_trip sample_clock solo_users solo_policies solo_claims
           (create_schema empty_database) solo_database).
  exact solo_load.
Defined.

(** ** Relationships of a loaded database *)

Lemma elem_of_match_node db l k v i :
  i ∈ match_node db l k v ↔
  has_label db i l = true ∧ cy_holds (cy_eq (prop db i k) v) = true.
Proof.
  unfold match_node. rewrite list_elem_of_filter, elem_of_seq, andb_True.
  rewrite !Is_true_true. split; [tauto|]. intros [Hl Hv]. split; [done|].
  apply has_label_true in Hl as (n & Hn & _).
  apply lookup_lt_Some in Hn. lia.
Qed.

Lemma elem_of_links db la ka fa t lb kb fb data r :
  r ∈ links db la ka fa t lb kb fb data ↔
  ∃ d, d ∈ data ∧ rel_kind r = t ∧
       rel_start r ∈ match_node db la ka (dict_get d fa (VStr "")) ∧
       rel_end r ∈ match_node db lb kb (dict_get d fb (VStr "")).
Proof.
  unfold links. rewrite list_elem_of_bind. split.
  - intros (d & (a & (b & ->%list_elem_of_singleton & Hb)%list_elem_of_bind & Ha)
                  %list_elem_of_bind & Hd).
    exists d. done.
  - intros (d & Hd & Ht & Ha & Hb). exists d. split; [|done].
    apply list_elem_of_bind. exists (rel_start r). split; [|done].
    apply list_elem_of_bind. exists (rel_end r). split; [|done].
    apply list_elem_of_singleton. destruct r. cbn in *. by subst.
Qed.

(** X3. After a load that returns, no relationship dangles or joins the
    wrong kinds of node: an OWNS relationship goes from a User node to a
    Policy node, a HAS_CLAIM relationship from a Policy node to a Claim node,
    a FILED relationship from a User node to a Claim node. *)
Theorem load_relationships_well_formed (now : nat → string)
    (users_data policies_data claims_data : list dict) (db0 db : database) :
  load_data_from_firestore now users_data policies_data claims_data db0 = Ok db →
  ∀ r, r ∈ rels db →
       has_label db (rel_start r) (rel_labels (rel_kind r)).1 = true ∧
       has_label db (rel_end r) (rel_labels (rel_kind r)).2 = true.
Proof.
  intros (_ & Hr & _)%load_closed r. rewrite Hr, !elem_of_app, !elem_of_links.
  intros [(d & _ & -> & Ha & Hb)|[(d & _ & -> & Ha & Hb)|(d & _ & -> & Ha & Hb)]];
    apply elem_of_match_node in Ha as [Ha _];
    apply elem_of_match_node in Hb as [Hb _]; done.
Qed.

Lemma load_relationships_well_formed_witness :
  ∀ r, r ∈ rels solo_database →
       has_label solo_database (rel_start r) (rel_labels (rel_kind r)).1 = true ∧
       has_label solo_database (rel_end r) (rel_labels (rel_kind r)).2 = true.
Proof.
  apply (load_relationships_well_formed sample_clock solo_users solo_policies
           solo_claims (create_schema empty_database) solo_database).
  exact solo_load.
Defined.

(** X4. Which relationships a load creates. After a load that returns, there
    is an OWNS relationship from node [a] to node [b] exactly when some
    policy document names, by its [userId] and [policyId] (or the default
    [''] of [.get]), a User node [a] and a Policy node [b]; likewise
    HAS_CLAIM for a claim document's [policyId] and [claimId], and FILED for
    a claim document's [userId] and [claimId]. A document that names a node
    that does not exist creates nothing, silently. *)
Theorem load_relationships_iff (now : nat → string)
    (users_data policies_data claims_data : list dict) (db0 db : database) :
  load_data_from_firestore now users_data policies_data claims_data db0 = Ok db →
  ∀ a b,
    (Rel OWNS a b ∈ rels db ↔
     ∃ policy, policy ∈ policies_data ∧
       a ∈ match_node db User "userId" (dict_get policy "userId" (VStr "")) ∧
       b ∈ match_node db Policy "policyId" (dict_get policy "policyId" (VStr ""))) ∧
    (Rel HAS_CLAIM a b ∈ rels db ↔
     ∃ claim, claim ∈ claims_data ∧
       a ∈ match_node db Policy "policyId" (dict_get claim "policyId" (VStr "")) ∧
       b ∈ match_node db Claim "claimId" (dict_get claim "claimId" (VStr ""))) ∧
    (Rel FILED a b ∈ rels db ↔
     ∃ claim, claim ∈ claims_data ∧
       a ∈ match_node db User "userId" (dict_get claim "userId" (VStr "")) ∧
       b ∈ match_node db Claim "claimId" (dict_get claim "claimId" (VStr ""))).
Proof.
  intros (_ & Hr & _)%load_closed a b.
  rewrite Hr, !elem_of_app, !elem_of_links. cbn [rel_kind rel_start rel_end].
  split_and!; (split;
    [intros [(d & ? & ? & ? & ?)|[(d & ? & ? & ? & ?)|(d & ? & ? & ? & ?)]];
       try discriminate; by exists d
    |intros (d & ? & ? & ?)]).
  - left. by exists d.
  - right. left. by exists d.
  - right. right. by exists d.
Qed.

Lemma load_relationships_iff_witness :
  ∀ a b,
    (Rel OWNS a b ∈ rels solo_database ↔
     ∃ policy, policy ∈ solo_policies ∧
       a ∈ match_node solo_database User "userId"
             (dict_get policy "userId" (VStr "")) ∧
       b ∈ match_node solo_database Policy "policyId"
             (dict_get policy "policyId" (VStr ""))) ∧
    (Rel HAS_CLAIM a b ∈ rels solo_database ↔
     ∃ claim, claim ∈ solo_claims ∧
       a ∈ match_node solo_database Policy "policyId"
             (dict_get claim "policyId" (VStr "")) ∧
       b ∈ match_node solo_database Claim "claimId"
             (dict_get claim "claimId" (VStr ""))) ∧
    (Rel FILED a b ∈ rels solo_database ↔
     ∃ claim, claim ∈ solo_claims ∧
       a ∈ match_node solo_database User "userId"
             (dict_get claim "userId" (VStr "")) ∧
       b ∈ match_node solo_database Claim "claimId"
             (dict_get claim "claimId" (VStr ""))).
Proof.
  apply (load_relationships_iff sample_clock solo_users solo_policies
           solo_claims (create_schema empty_database) solo_database).
  exact solo_load.
Defined.

(** ** Uniqueness constraints *)

Lemma cy_eq_sym a b : cy_eq a b = cy_eq b a.
Proof.
  destruct a, b; cbn; try done.
  - by rewrite String.eqb_sym.
  - by rewrite Qeq_bool_comm.
Qed.

Lemma unique_keys_nodes db db' l :
  nodes db' = nodes db → unique_keys db l → unique_keys db' l.
Proof. unfold unique_keys, has_label, prop. by intros ->. Qed.

Lemma has_label_snoc db n r c i l :
  has_label (Database (nodes db ++ [n]) r c) i l = true →
  (i < length (nodes db))%nat ∧ has_label db i l = true
  ∨ i = length (nodes db) ∧ node_label n = l.
Proof.
  rewrite !has_label_true. cbn [nodes]. intros (m & Hm & Hl).
  apply lookup_app_Some in Hm as [Hm|[Hlen Hm]].
  - left. split; [by eapply lookup_lt_Some|eauto].
  - right. apply list_lookup_singleton_Some in Hm as [Hi ->].
    split; [lia|done].
Qed.

Lemma prop_snoc_old db n r c i k :
  (i < length (nodes db))%nat →
  prop (Database (nodes db ++ [n]) r c) i k = prop db i k.
Proof. intros Hi. unfold prop. cbn [nodes]. by rewrite lookup_app_l. Qed.

Lemma prop_snoc_new db n r c k :
  prop (Database (nodes db ++ [n]) r c) (length (nodes db)) k = node_prop n k.
Proof.
  unfold prop. cbn [nodes].
  by rewrite lookup_app_r, Nat.sub_diag by lia.
Qed.

(** A CREATE that the constraint of [l] lets through keeps the keys of [l]
    unique. *)
Lemma create_node_unique_keys l l' params db db' :
  l ∈ constraints db → unique_keys db l →
  create_node l' params db = Ok db' → unique_keys db' l.
Proof.
  intros Hc Huniq. unfold create_node.
  destruct (bool_decide (l' ∈ constraints db) && _) eqn:E; [done|].
  intros [= <-]. set (n := Node l' (stored params)) in *.
  assert (∀ j, node_label n = l → has_label db j l = true →
               cy_holds (cy_eq (prop db j (unique_key l))
                               (node_prop n (unique_key l))) = false) as Hnew.
  { intros j Hl Hj. cbn in Hl. subst l'.
    rewrite bool_decide_eq_true_2 in E by done. cbn [andb] in E.
    unfold key_taken in E. apply bool_decide_eq_false in E.
    destruct (cy_holds _) eqn:Eh; [|done]. destruct E. intros Hnil.
    assert (j ∈ match_node db l (unique_key l) (node_prop n (unique_key l))) as Hin
      by (by apply elem_of_match_node).
    rewrite Hnil in Hin. by apply elem_of_nil in Hin. }
  intros i j Hij
    [[Hi Hli]|[-> Hli]]%has_label_snoc [[Hj Hlj]|[-> Hlj]]%has_label_snoc.
  - rewrite !prop_snoc_old by done. by apply Huniq.
  - rewrite prop_snoc_new, prop_snoc_old by done. by apply Hnew.
  - rewrite prop_snoc_new, prop_snoc_old, cy_eq_sym by done. by apply Hnew.
  - done.
Qed.

Lemma create_user_nodes_unique_keys now l t users_data db db' :
  l ∈ constraints db → unique_keys db l →
  create_user_nodes now t users_data db = Ok db' → unique_keys db' l.
Proof.
  revert t db. induction users_data as [|user rest IH]; intros t db Hc Huniq.
  - by intros [= <-].
  - cbn [create_user_nodes]. intros (db1 & H1 & Hrest)%bind_Ok.
    apply (IH _ _) in Hrest; [done| |by eapply create_node_unique_keys].
    apply create_node_Ok in H1 as ->. done.
Qed.

Lemma create_nodes_unique_keys l l' (params : dict → list (string * value))
    data db db' :
  l ∈ constraints db → unique_keys db l →
  create_nodes (λ d, create_node l' (params d)) data db = Ok db' →
  unique_keys db' l.
Proof.
  revert db. induction data as [|d rest IH]; intros db Hc Huniq.
  - by intros [= <-].
  - cbn [create_nodes]. intros (db1 & H1 & Hrest)%bind_Ok.
    apply IH in Hrest; [done| |by eapply create_node_unique_keys].
    apply create_node_Ok in H1 as ->. done.
Qed.

Lemma load_keeps_keys_unique now users_data policies_data claims_data db0 db l :
  l ∈ constraints db0 →
  load_data_from_firestore now users_data policies_data claims_data db0 = Ok db →
  unique_keys db l.
Proof.
  intros Hc. unfold load_data_from_firestore.
  intros (db1 & H1 & (db2 & H2 & (db3 & H3 & [= <-])%bind_Ok)%bind_Ok)%bind_Ok.
  apply (unique_keys_nodes db3); [apply create_relationships_nodes|].
  assert (constraints db1 = constraints db0) as Hc1
    by (by apply create_user_nodes_closed in H1 as ->).
  assert (constraints db2 = constraints db0) as Hc2
    by (apply create_nodes_closed in H2 as ->; done).
  eapply (create_nodes_unique_keys l Claim); [|
    eapply (create_nodes_unique_keys l Policy); [|
      eapply (create_user_nodes_unique_keys now l); [| |exact H1]|exact H2]|exact H3].
  - by rewrite Hc2.
  - by rewrite Hc1.
  - done.
  - intros i j _ Hi. by apply has_label_true in Hi as (? & ? & _).
Qed.

(** X5. Under the uniqueness constraint of a label, a load that returns
    leaves no two nodes of that label with the same key: no two User nodes
    with equal [userId], no two Policy nodes with equal [policyId], no two
    Claim nodes with equal [claimId]. *)
Theorem load_unique_keys (now : nat → string)
    (users_data policies_data claims_data : list dict) (db0 db : database)
    (l : label) :
  l ∈ constraints db0 →
  load_data_from_firestore now users_data policies_data claims_data db0 = Ok db →
  unique_keys db l.
Proof. apply load_keeps_keys_unique. Qed.

Lemma load_unique_keys_witness :
  User ∈ constraints (create_schema empty_database) ∧
  unique_keys solo_database User.
Proof.
  assert (User ∈ constraints (create_schema empty_database)) as Hc
    by (vm_compute; set_solver).
  split; [done|].
  apply (load_unique_keys sample_clock solo_users solo_policies solo_claims
           (create_schema empty_database) solo_database User Hc).
  exact solo_load.
Defined.

(** ** Duplicate ids *)

Lemma create_node_Raise l params db e :
  create_node l params db = Raise e → e = ConstraintError.
Proof. unfold create_node. by destruct (_ && _); intros [= <-]. Qed.

Lemma bind_Raise {A B} (m : res A) (f : A → res B) (e : error) :
  m ≫= f = Raise e → m = Raise e ∨ ∃ a, m = Ok a ∧ f a = Raise e.
Proof. destruct m as [a|e']; cbn; [eauto|by intros [= ->]; left]. Qed.

Lemma create_user_nodes_Raise now t users_data db e :
  create_user_nodes now t users_data db = Raise e → e = ConstraintError.
Proof.
  revert t db. induction users_data as [|user rest IH]; intros t db; [done|].
  cbn [create_user_nodes].
  intros [H|(db1 & _ & H)]%bind_Raise; [by eapply create_node_Raise|eauto].
Qed.

Lemma create_nodes_Raise l (params : dict → list (string * value)) data db e :
  create_nodes (λ d, create_node l (params d)) data db = Raise e →
  e = ConstraintError.
Proof.
  revert db. induction data as [|d rest IH]; intros db; [done|].
  cbn [create_nodes].
  intros [H|(db1 & _ & H)]%bind_Raise; [by eapply create_node_Raise|eauto].
Qed.

(** The only way a load fails is a broken uniqueness constraint. *)
Lemma load_Raise now users_data policies_data claims_data db0 e :
  load_data_from_firestore now users_data policies_data claims_data db0 = Raise e →
  e = ConstraintError.
Proof.
  unfold load_data_from_firestore.
  intros [H|(db1 & _ & [H|(db2 & _ & [H|(db3 & _ & H)]%bind_Raise)]%bind_Raise)]
         %bind_Raise.
  - by eapply create_user_nodes_Raise.
  - by eapply (create_nodes_Raise Policy).
  - by eapply (create_nodes_Raise Claim).
  - done.
Qed.

(** X6. With the uniqueness constraint on User in place, a load whose user
    documents hold the same text id twice (the value of [uid], or of [id]
    when there is no [uid]) raises the constraint error instead of
    returning, whatever else the documents hold. *)
Theorem load_duplicate_user_id_raises (now : nat → string)
    (users_data policies_data claims_data : list dict) (db0 : database)
    (i j : nat) (user1 user2 : dict) (id : string) :
  User ∈ constraints db0 →
  users_data !! i = Some user1 →
  users_data !! j = Some user2 →
  i ≠ j →
  dict_get user1 "uid" (dict_get user1 "id" (VStr "")) = VStr id →
  dict_get user2 "uid" (dict_get user2 "id" (VStr "")) = VStr id →
  load_data_from_firestore now users_data policies_data claims_data db0
  = Raise ConstraintError.
Proof.
  intros Hc Hi Hj Hij Hid1 Hid2.
  destruct (load_data_from_firestore now users_data policies_data claims_data db0)
    as [db|e] eqn:Hload; [|by apply load_Raise in Hload as ->].
  exfalso.
  pose proof (load_keeps_keys_unique _ _ _ _ _ _ _ Hc Hload) as Huniq.
  pose proof (load_user_node _ _ _ _ _ _ _ _ Hload Hi) as Hn1.
  pose proof (load_user_node _ _ _ _ _ _ _ _ Hload Hj) as Hn2.
  destruct (lookup_node db i _ User "userId" Hn1 eq_refl) as [Hl1 Hp1].
  destruct (lookup_node db j _ User "userId" Hn2 eq_refl) as [Hl2 Hp2].
  specialize (Huniq i j Hij Hl1 Hl2). cbn [unique_key] in Huniq.
  rewrite Hp1, Hp2 in Huniq. unfold node_prop in Huniq. cbn [node_props] in Huniq.
  rewrite (stored_round_trip _ "userId" (VStr id)),
    (stored_round_trip _ "userId" (VStr id)) in Huniq.
  - cbn in Huniq. by rewrite String.eqb_refl in Huniq.
  - apply user_params_NoDup.
  - unfold user_params. rewrite Hid2. left.
  - apply user_params_NoDup.
  - unfold user_params. rewrite Hid1. left.
Qed.

Lemma load_duplicate_user_id_raises_witness :
  load_data_from_firestore sample_clock
    [doc [("uid", VStr "a")]; doc [("id", VStr "a")]] [] []
    (create_schema empty_database)
  = Raise ConstraintError.
Proof.
  apply (load_duplicate_user_id_raises sample_clock
           [doc [("uid", VStr "a")]; doc [("id", VStr "a")]] [] []
           (create_schema empty_database) 0 1
           (doc [("uid", VStr "a")]) (doc [("id", VStr "a")]) "a").
  - vm_compute. set_solver.
  - reflexivity.
  - reflexivity.
  - lia.
  - by vm_compute.
  - by vm_compute.
Defined.

(** ** The schema *)

Lemma keys_unique_true db l ids :
  NoDup ids →
  keys_unique db l ids = true ↔
  ∀ i j, i ∈ ids → j ∈ ids → i ≠ j →
         has_label db i l = true → has_label db j l = true →
         cy_holds (cy_eq (prop db i (unique_key l)) (prop db j (unique_key l)))
         = false.
Proof.
  induction ids as [|x ids IH]; intros Hnd.
  - split; [by intros _ i j ?%elem_of_nil|done].
  - apply NoDup_cons in Hnd as [Hx Hnd]. cbn [keys_unique].
    rewrite andb_true_iff, (IH Hnd), orb_true_iff, negb_true_iff, forallb_forall.
    split.
    + intros [Hhead Htail] i j [->|Hi]%elem_of_cons [->|Hj]%elem_of_cons Hij Hli Hlj.
      * done.
      * destruct Hhead as [Hhead|Hhead]; [congruence|].
        specialize (Hhead j (proj1 (list_elem_of_In _ _) Hj)).
        rewrite Hlj in Hhead. cbn in Hhead. by apply negb_true_iff in Hhead.
      * destruct Hhead as [Hhead|Hhead]; [congruence|].
        specialize (Hhead i (proj1 (list_elem_of_In _ _) Hi)).
        rewrite Hli in Hhead. cbn in Hhead. apply negb_true_iff in Hhead.
        by rewrite cy_eq_sym.
      * by apply Htail.
    + intros H. split.
      * destruct (has_label db x l) eqn:Hlx; [right|by left].
        intros j Hj%list_elem_of_In. apply negb_true_iff.
        destruct (has_label db j l) eqn:Hlj; [cbn|done].
        apply H; [left|by right| |done..]. by intros ->.
      * intros i j Hi Hj. apply H; by right.
Qed.

Lemma keys_unique_spec db l :
  keys_unique db l (seq 0 (length (nodes db))) = true ↔ unique_keys db l.
Proof.
  rewrite keys_unique_true by apply NoDup_seq. unfold unique_keys. split.
  - intros H i j Hij Hli Hlj. apply H; [| |done..]; apply elem_of_seq.
    + apply has_label_true in Hli as (? & ?%lookup_lt_Some & _). lia.
    + apply has_label_true in Hlj as (? & ?%lookup_lt_Some & _). lia.
  - intros H i j _ _. apply H.
Qed.

Lemma create_constraint_nodes l db :
  nodes (create_constraint l db) = nodes db ∧
  rels (create_constraint l db) = rels db.
Proof. unfold create_constraint. by repeat case_match. Qed.

Lemma elem_of_create_constraint l' l db :
  l' ∈ constraints (create_constraint l db) ↔
  l' ∈ constraints db ∨ l' = l ∧ unique_keys db l.
Proof.
  unfold create_constraint. rewrite <-keys_unique_spec.
  destruct (bool_decide (l ∈ constraints db)) eqn:E.
  - apply bool_decide_eq_true in E. split; [by left|]. by intros [?|[-> _]].
  - destruct (keys_unique db l _) eqn:Ek; cbn [constraints].
    + rewrite elem_of_cons.
      split; [intros [->|?]; [by right|by left]|intros [?|[-> _]]; [by right|by left]].
    + split; [by left|]. by intros [?|[_ ?]].
Qed.

Lemma unique_keys_create_constraint l' l db :
  unique_keys (create_constraint l' db) l ↔ unique_keys db l.
Proof.
  split; apply unique_keys_nodes; [symmetry|]; apply create_constraint_nodes.
Qed.

(** A constraint statement changes nothing when the database already holds
    every constraint it could add. *)
Lemma create_constraint_stable l db db' :
  nodes db' = nodes db →
  (∀ x, x ∈ constraints (create_constraint l db) → x ∈ constraints db') →
  create_constraint l db' = db'.
Proof.
  intros Hn Hsub. unfold create_constraint at 1.
  destruct (bool_decide (l ∈ constraints db')) eqn:E; [done|].
  apply bool_decide_eq_false in E.
  destruct (keys_unique db' l _) eqn:Ek; [|done].
  destruct E. apply Hsub, elem_of_create_constraint. right. split; [done|].
  apply keys_unique_spec in Ek. by apply (unique_keys_nodes db').
Qed.

(** X7. [create_schema] never fails and touches no node and no
    relationship. The constraint of a label is in force afterwards exactly
    when it was in force before or the nodes of that label have pairwise
    different keys: on data that break a constraint, that constraint is
    silently left out while the others are still created. *)
Theorem create_schema_constraints (db : database) (l : label) :
  nodes (create_schema db) = nodes db ∧
  rels (create_schema db) = rels db ∧
  (l ∈ constraints (create_schema db) ↔ l ∈ constraints db ∨ unique_keys db l).
Proof.
  unfold create_schema. split_and!.
  - by rewrite !(proj1 (create_constraint_nodes _ _)).
  - by rewrite !(proj2 (create_constraint_nodes _ _)).
  - rewrite !elem_of_create_constraint, !unique_keys_create_constraint.
    destruct l; split; intros H; intuition congruence.
Qed.

(** X8. [create_schema] is idempotent: run again on a database it has
    already been run on, it changes nothing. *)
Theorem create_schema_idempotent (db : database) :
  create_schema (create_schema db) = create_schema db.
Proof.
  unfold create_schema.
  set (db1 := create_constraint User db).
  set (db2 := create_constraint Policy db1).
  set (db3 := create_constraint Claim db2).
  assert (nodes db1 = nodes db) as Hn1 by apply create_constraint_nodes.
  assert (nodes db2 = nodes db1) as Hn2 by apply create_constraint_nodes.
  assert (nodes db3 = nodes db2) as Hn3 by apply create_constraint_nodes.
  rewrite (create_constraint_stable User db db3).
  - rewrite (create_constraint_stable Policy db1 db3).
    + apply (create_constraint_stable Claim db2 db3); [done|]. done.
    + congruence.
    + intros x Hx. apply elem_of_create_constraint. by left.
  - congruence.
  - intros x Hx. apply elem_of_create_constraint. left.
    apply elem_of_create_constraint. by left.
Qed.

(** ** The range of the network risk score *)

Lemma Qltb_false a b : Qltb a b = false ↔ (b <= a)%Q.
Proof.
  unfold Qltb. rewrite negb_false_iff. apply Qle_bool_iff.
Qed.

(** X9. Whenever [_calculate_network_risk_score] returns, the score lies
    between 0.3 and 0.9: the two bonuses add at most 0.6 to the base 0.3, so
    the final cap at 1.0 never changes the result. *)
Theorem network_risk_score_range (r : record) (s : Q) :
  _calculate_network_risk_score r = Ok s →
  (0.3 <= s)%Q ∧ (s <= 0.9)%Q.
Proof.
  unfold _calculate_network_risk_score.
  intros (count & _ & (gt5 & _ & (b1 & Hb1 & (amount & _ & (gt10 & _ &
           (b2 & Hb2 & [= <-])%bind_Ok)%bind_Ok)%bind_Ok)%bind_Ok)%bind_Ok)%bind_Ok.
  assert (b1 = 0.3%Q ∨ b1 = qadd 0.3 0.2 ∨ b1 = qadd 0.3 0.3) as Hcases1.
  { destruct gt5; [injection Hb1 as <-; auto|].
    apply bind_Ok in Hb1 as (gt2 & _ & Hb1). destruct gt2; injection Hb1 as <-; auto. }
  assert (b2 = b1 ∨ b2 = qadd b1 0.2 ∨ b2 = qadd b1 0.3) as Hcases2.
  { destruct gt10; [injection Hb2 as <-; auto|].
    apply bind_Ok in Hb2 as (gt5l & _ & Hb2). destruct gt5l; injection Hb2 as <-; auto. }
  destruct Hcases1 as [-> | [-> | ->]], Hcases2 as [-> | [-> | ->]];
    vm_compute; split; discriminate.
Qed.

Lemma network_risk_score_range_witness :
  (0.3 <= 0.9)%Q ∧ (0.9 <= 0.9)%Q.
Proof.
  apply (network_risk_score_range
           [("claims_count1", VNum 4); ("claims_count2", VNum 3);
            ("total_amount1", VNum 900000); ("total_amount2", VNum 400000)]
           0.9%Q).
  by vm_compute.
Defined.

(** ** Amounts the phone detector cannot add *)

Lemma phone_groups_member db u1 u2 c1 c2 :
  (u1, u2, c1, c2) ∈ phone_rows db →
  ∃ claims1 claims2,
    (u1, u2, claims1, claims2) ∈ phone_groups db ∧ c1 ∈ claims1 ∧ c2 ∈ claims2.
Proof.
  intros Hr. unfold phone_groups.
  set (rows := filter (λ r : nat * nat * nat * nat,
                         (let '(u1, u2, _, _) := r in (u1, u2)) = (u1, u2))
                      (phone_rows db)).
  assert ((u1, u2, c1, c2) ∈ rows) as Hin by (by apply list_elem_of_filter).
  assert (c1 ∈ remove_dups ((λ '(_, _, c1, _), c1) <$> rows)) as H1
    by (apply elem_of_remove_dups, list_elem_of_fmap; by exists (u1, u2, c1, c2)).
  assert (c2 ∈ remove_dups ((λ '(_, _, _, c2), c2) <$> rows)) as H2
    by (apply elem_of_remove_dups, list_elem_of_fmap; by exists (u1, u2, c1, c2)).
  eexists _, _. split; [|split; [exact H1|exact H2]].
  apply list_elem_of_filter. split.
  - split; apply Nat.neq_0_lt_0; intros Hlen%length_zero_iff_nil;
      [rewrite Hlen in H1|rewrite Hlen in H2]; by eapply elem_of_nil.
  - apply list_elem_of_fmap. exists ((u1, u2), rows). split; [done|].
    apply elem_of_group_by. split; [|done]. by exists (u1, u2, c1, c2).
Qed.

Lemma network_risk_score_Ok_amounts r s :
  _calculate_network_risk_score r = Ok s →
  ∃ a1 a2, record_get r "total_amount1" (VNum 0) = VNum a1 ∧
           record_get r "total_amount2" (VNum 0) = VNum a2.
Proof.
  unfold _calculate_network_risk_score.
  intros (count & _ & (gt5 & _ & (b1 & _ & (amount & Hadd & (gt10 & Hgt & _)
           %bind_Ok)%bind_Ok)%bind_Ok)%bind_Ok)%bind_Ok.
  destruct (record_get r "total_amount1" _), (record_get r "total_amount2" _);
    try done.
  - injection Hadd as <-. done.
  - eauto.
Qed.

Lemma phone_network_Ok_amounts db u1 u2 claims1 claims2 t1 t2 n :
  phone_network (phone_record db u1 u2 claims1 claims2 t1 t2) = Ok n →
  (∃ a1, t1 = VNum a1) ∧ (∃ a2, t2 = VNum a2) ∧
  users n = [prop db u1 "userId"; prop db u2 "userId"].
Proof.
  unfold phone_network. cbn [phone_record record_item record_find String.eqb
    Ascii.eqb Bool.eqb mbind res_bind].
  destruct (_calculate_network_risk_score _) as [s|e] eqn:Hs; [|done].
  apply network_risk_score_Ok_amounts in Hs as (a1 & a2 & H1 & H2).
  intros [= <-]. cbn in H1, H2. subst. cbn. eauto.
Qed.

(** What a returning phone detector has read. *)
Lemma detect_phone_networks_Ok db nets :
  _detect_phone_networks db = Ok nets →
  (∀ u1 u2 claims1 claims2,
     (u1, u2, claims1, claims2) ∈ phone_groups db →
     ∀ c, c ∈ claims1 → ∃ q, prop db c "claimAmount" = VNum q) ∧
  (∀ n, n ∈ nets →
     ∃ u1 u2 claims1 claims2,
       (u1, u2, claims1, claims2) ∈ phone_groups db ∧
       users n = [prop db u1 "userId"; prop db u2 "userId"]).
Proof.
  unfold _detect_phone_networks, phone_query.
  intros (records & Hq & Hnets)%bind_Ok. split.
  - intros u1 u2 claims1 claims2 Hg c Hc.
    destruct (mapM_Ok_elem_of_l _ _ _ _ Hq Hg) as (rec & Hrec & Hgr).
    destruct (mapM_Ok_elem_of_l _ _ _ _ Hnets Hrec) as (n & _ & Hn).
    cbn [phone_group_record] in Hgr.
    apply bind_Ok in Hgr as (t1 & Ht1 & (t2 & Ht2 & [= <-])%bind_Ok).
    apply phone_network_Ok_amounts in Hn as ([a1 ->] & _ & _).
    apply cy_sum_VNum in Ht1 as [_ Hall]. by apply Hall.
  - intros n Hn.
    destruct (mapM_Ok_elem_of _ _ _ _ Hnets Hn) as (rec & Hrec & Hnet).
    destruct (mapM_Ok_elem_of _ _ _ _ Hq Hrec)
      as ([[[u1 u2] claims1] claims2] & Hg & Hgr).
    cbn [phone_group_record] in Hgr.
    apply bind_Ok in Hgr as (t1 & Ht1 & (t2 & Ht2 & [= <-])%bind_Ok).
    apply phone_network_Ok_amounts in Hnet as (_ & _ & Husers).
    by exists u1, u2, claims1, claims2.
Qed.

(** X10. One claim without an amount stops phone detection: when two
    different users share a non-empty phone number and each owns a policy
    with a claim, and the claim of the first has no [claimAmount] (its
    document held [None], so the property is null), [_detect_phone_networks]
    raises instead of returning; the sum of the amounts is null and the
    score function cannot add it. *)
Theorem phone_networks_null_amount_raises (db : database) (u1 u2 c1 c2 : nat) :
  (u1, u2, c1, c2) ∈ phone_rows db →
  prop db c1 "claimAmount" = VNull →
  ∃ e, _detect_phone_networks db = Raise e.
Proof.
  intros Hrow Hnull.
  destruct (_detect_phone_networks db) as [nets|e] eqn:Hd; [|by exists e].
  exfalso.
  destruct (phone_groups_member _ _ _ _ _ Hrow) as (claims1 & claims2 & Hg & H1 & _).
  destruct (proj1 (detect_phone_networks_Ok _ _ Hd) _ _ _ _ Hg c1 H1) as [q Hq].
  congruence.
Qed.

Lemma phone_networks_null_amount_raises_witness :
  ∃ e, _detect_phone_networks null_amount_database = Raise e.
Proof.
  apply (phone_networks_null_amount_raises null_amount_database 0 1 4 5).
  - apply (bool_decide_unpack _). by vm_compute.
  - by vm_compute.
Defined.

(** ** Whom a network names *)

Lemma cy_neq_true a b :
  cy_holds (cy_neq a b) = true → a ≠ VNull ∧ b ≠ VNull ∧ py_eq a b = false.
Proof.
  destruct a, b; cbn; try done; intros H; split_and!; try done.
  - by destruct (String.eqb _ _).
  - by destruct (Qeq_bool _ _).
Qed.

Lemma remove_duplicates_loop_elem_of seen unique_networks networks out n :
  remove_duplicates_loop seen unique_networks networks = Ok out →
  n ∈ out → n ∈ unique_networks ∨ n ∈ networks.
Proof.
  revert seen unique_networks.
  induction networks as [|x rest IH]; intros seen unique_networks.
  - intros [= <-]. by left.
  - cbn [remove_duplicates_loop]. intros (k & _ & Hloop)%bind_Ok Hn.
    destruct (existsb _ _).
    + destruct (IH _ _ Hloop Hn); [by left|right; by right].
    + destruct (IH _ _ Hloop Hn) as [[? | ->%list_elem_of_singleton]%elem_of_app | ?];
        [by left|right; left|right; by right].
Qed.

Section NetworkUsers.
Variable num_repr : Q → string.

Lemma policy_network_users db n :
  n ∈ policy_network_of num_repr db <$> policy_groups db →
  ∃ u1 u2, users n = [prop db u1 "userId"; prop db u2 "userId"] ∧
           cy_holds (cy_neq (prop db u1 "userId") (prop db u2 "userId")) = true.
Proof.
  intros ([[[[[u1 u2] p1] p2] claims1] claims2] & -> & Hg)%list_elem_of_fmap.
  apply elem_of_policy_groups in Hg as (c1 & c2 & Hr).
  apply elem_of_policy_rows in Hr as (_ & _ & Hneq). by exists u1, u2.
Qed.

Lemma claim_network_users db n :
  n ∈ claim_network_of num_repr db <$> claim_rows db →
  ∃ u1 u2, users n = [prop db u1 "userId"; prop db u2 "userId"] ∧
           cy_holds (cy_neq (prop db u1 "userId") (prop db u2 "userId")) = true.
Proof.
  intros ([[[[[u1 u2] c1] c2] p1] p2] & -> & Hr)%list_elem_of_fmap.
  apply elem_of_claim_rows in Hr as (_ & _ & Hw & _).
  apply cy_holds_and in Hw
    as [[[[Hneq _]%cy_holds_and _]%cy_holds_and _]%cy_holds_and _].
  by exists u1, u2.
Qed.

Lemma phone_network_users db nets n :
  _detect_phone_networks db = Ok nets → n ∈ nets →
  ∃ u1 u2, users n = [prop db u1 "userId"; prop db u2 "userId"] ∧
           cy_holds (cy_neq (prop db u1 "userId") (prop db u2 "userId")) = true.
Proof.
  intros Hd Hn.
  destruct (proj2 (detect_phone_networks_Ok _ _ Hd) n Hn)
    as (u1 & u2 & claims1 & claims2 & Hg & Husers).
  apply elem_of_phone_groups in Hg as [(c1 & c2 & Hr) _].
  apply elem_of_phone_rows in Hr as (p1 & p2 & _ & _ & Hw).
  apply cy_holds_and in Hw as [[_ Hneq]%cy_holds_and _].
  by exists u1, u2.
Qed.

Lemma suspicious_network_users db nets n :
  _detect_suspicious_networks num_repr db = Ok nets → n ∈ nets →
  ∃ u1 u2, users n = [prop db u1 "userId"; prop db u2 "userId"] ∧
           cy_holds (cy_neq (prop db u1 "userId") (prop db u2 "userId")) = true.
Proof.
  unfold _detect_suspicious_networks.
  intros (phone & Hphone & (policy & Hpolicy & (claim & Hclaim & Hdedup)
            %bind_Ok)%bind_Ok)%bind_Ok Hn.
  rewrite detect_policy_networks_eq in Hpolicy. injection Hpolicy as <-.
  rewrite detect_claim_networks_eq in Hclaim. injection Hclaim as <-.
  destruct (remove_duplicates_loop_elem_of _ _ _ _ _ Hdedup Hn)
    as [[]%elem_of_nil | Hin].
  rewrite app_nil_l in Hin. apply elem_of_app in Hin as [[?|?]%elem_of_app|?].
  - by eapply phone_network_users.
  - by apply policy_network_users.
  - by apply claim_network_users.
Qed.
End NetworkUsers.

(** X11. No network pairs a user with itself or with nobody: every network
    [_detect_suspicious_networks] returns lists exactly two user ids, both
    set (not null) and different from each other. *)
Theorem suspicious_networks_two_distinct_users (num_repr : Q → string)
    (db : database) (nets : list network) :
  _detect_suspicious_networks num_repr db = Ok nets →
  ∀ n, n ∈ nets →
       ∃ a b, users n = [a; b] ∧ a ≠ VNull ∧ b ≠ VNull ∧ py_eq a b = false.
Proof.
  intros Hd n Hn.
  destruct (suspicious_network_users _ _ _ _ Hd Hn) as (u1 & u2 & Hu & Hneq).
  apply cy_neq_true in Hneq. eauto.
Qed.

Lemma twin_networks_detected :
  _detect_suspicious_networks sample_repr twin_database = Ok twin_networks.
Proof. by vm_compute. Qed.

Lemma suspicious_networks_two_distinct_users_witness :
  ∀ n, n ∈ twin_networks →
       ∃ a b, users n = [a; b] ∧ a ≠ VNull ∧ b ≠ VNull ∧ py_eq a b = false.
Proof.
  apply (suspicious_networks_two_distinct_users sample_repr twin_database
           twin_networks).
  exact twin_networks_detected.
Defined.

(** ** Deduplicating twice *)

Lemma first_wins_idempotent {A K} `{EqDecision K} (key : A → K) seen (l : list A) :
  first_wins key seen (first_wins key seen l) = first_wins key seen l.
Proof.
  revert seen. induction l as [|x l IH]; intros seen; [done|].
  cbn. destruct (decide (key x ∈ seen)) as [Hin|Hnin]; [apply IH|].
  cbn. rewrite decide_False by done. f_equal. apply IH.
Qed.

(** X12. [_remove_duplicate_networks] is idempotent on networks whose user
    ids are strings: what it returns it returns unchanged when run again. *)
Theorem remove_duplicate_networks_idempotent (networks out : list network) :
  Forall string_users networks →
  _remove_duplicate_networks networks = Ok out →
  _remove_duplicate_networks out = Ok out.
Proof.
  intros Hstr. rewrite remove_duplicate_networks_eq by done. intros [= <-].
  rewrite remove_duplicate_networks_eq.
  - by rewrite first_wins_idempotent.
  - apply Forall_forall. intros n Hn. rewrite Forall_forall in Hstr.
    apply Hstr. eapply elem_of_sublist; [exact Hn|]. apply first_wins_sublist.
Qed.

Lemma remove_duplicate_networks_idempotent_witness :
  _remove_duplicate_networks
    [Network "phone_network" [VStr "a"; VStr "b"] [] [] (VStr "555-0100") 0.5 []]
  = Ok [Network "phone_network" [VStr "a"; VStr "b"] [] [] (VStr "555-0100") 0.5 []].
Proof.
  apply (remove_duplicate_networks_idempotent
           [Network "phone_network" [VStr "a"; VStr "b"] [] [] (VStr "555-0100") 0.5 [];
            Network "claim_network" [VStr "b"; VStr "a"] [] [] (VStr "x") 0.9 []]).
  - repeat constructor.
  - by vm_compute.
Defined.

(** ** Both orders of a pair *)

Lemma cy_eq_congr a b c :
  cy_holds (cy_eq a b) = true → cy_eq a c = cy_eq b c.
Proof.
  destruct a as [|x|x], b as [|y|y]; cbn; try done.
  - by destruct (String.eqb_spec x y) as [->|].
  - destruct (Qeq_bool x y) eqn:Hxy; [intros _|done].
    destruct c as [|z|z]; cbn; try done.
    f_equal. apply Qeqb_comp; [by apply Qeq_bool_iff|reflexivity].
Qed.

Lemma cy_gt_congr a b c :
  cy_holds (cy_eq a b) = true → cy_gt a c = cy_gt b c.
Proof.
  destruct a as [|x|x], b as [|y|y]; cbn; try done.
  - by destruct (String.eqb_spec x y) as [->|].
  - destruct (Qeq_bool x y) eqn:Hxy; [intros _|done].
    destruct c as [|z|z]; cbn; try done.
    f_equal. apply Qltb_proper; [reflexivity|by apply Qeq_bool_iff].
Qed.

Lemma cy_holds_eq_sym a b :
  cy_holds (cy_eq a b) = true → cy_holds (cy_eq b a) = true.
Proof. by rewrite cy_eq_sym. Qed.

Lemma cy_holds_neq_sym a b :
  cy_holds (cy_neq a b) = true → cy_holds (cy_neq b a) = true.
Proof. unfold cy_neq. by rewrite cy_eq_sym. Qed.

Lemma phone_rows_sym db u1 u2 c1 c2 :
  (u1, u2, c1, c2) ∈ phone_rows db → (u2, u1, c2, c1) ∈ phone_rows db.
Proof.
  rewrite !elem_of_phone_rows. intros (p1 & p2 & H1 & H2 & Hw).
  exists p2, p1. split; [done|]. split; [done|].
  apply cy_holds_and in Hw as [[Heq Hneq]%cy_holds_and Hset].
  rewrite !cy_holds_and. split_and!.
  - by apply cy_holds_eq_sym.
  - by apply cy_holds_neq_sym.
  - unfold cy_neq in *. by rewrite <-(cy_eq_congr _ _ _ Heq).
Qed.

Lemma claim_rows_sym db u1 u2 c1 c2 p1 p2 :
  (u1, u2, c1, c2, p1, p2) ∈ claim_rows db →
  (u2, u1, c2, c1, p2, p1) ∈ claim_rows db.
Proof.
  rewrite !elem_of_claim_rows. intros (H1 & H2 & Hw & H3 & H4 & Hi).
  split_and!; try done; [|by apply cy_holds_eq_sym].
  apply cy_holds_and in Hw
    as [[[[Hneq Htype]%cy_holds_and Hamount]%cy_holds_and Hdate]%cy_holds_and Hpos].
  rewrite !cy_holds_and. split_and!.
  - by apply cy_holds_neq_sym.
  - by apply cy_holds_eq_sym.
  - by apply cy_holds_eq_sym.
  - by apply cy_holds_eq_sym.
  - by rewrite <-(cy_gt_congr _ _ _ Hamount).
Qed.

Lemma elem_of_policy_rows_iff db u1 u2 p1 p2 c1 c2 :
  (u1, u2, p1, p2, c1, c2) ∈ policy_rows db ↔
  (u1, p1) ∈ match_rel db User OWNS Policy ∧
  (u2, p2) ∈ match_rel db User OWNS Policy ∧
  cy_holds
    (cy_and
       (cy_and
          (cy_and
             (cy_and (cy_neq (prop db u1 "userId") (prop db u2 "userId"))
                     (cy_eq (prop db p1 "insurance_type")
                            (prop db p2 "insurance_type")))
             (cy_eq (prop db p1 "policy_annual_premium")
                    (prop db p2 "policy_annual_premium")))
          (cy_eq (prop db p1 "sum_insured") (prop db p2 "sum_insured")))
       (cy_gt (prop db p1 "policy_annual_premium") (VNum 0))) = true ∧
  (p1, c1) ∈ match_rel db Policy HAS_CLAIM Claim ∧
  (p2, c2) ∈ match_rel db Policy HAS_CLAIM Claim.
Proof.
  unfold policy_rows. split.
  - intros ([u1' p1'] & Hin & H1)%list_elem_of_bind.
    apply list_elem_of_bind in Hin as ([u2' p2'] & Hin & H2).
    destruct (cy_holds _) eqn:Ew in Hin; [|by apply elem_of_nil in Hin].
    apply list_elem_of_bind in Hin as ([p1'' c1'] & Hin & H3).
    case_bool_decide as E1; [subst p1''|by apply elem_of_nil in Hin].
    apply list_elem_of_bind in Hin as ([p2'' c2'] & Hin & H4).
    case_bool_decide as E2; [subst p2''|by apply elem_of_nil in Hin].
    apply list_elem_of_singleton in Hin as [= -> -> -> -> -> ->]. done.
  - intros (H1 & H2 & Hw & H3 & H4).
    apply list_elem_of_bind. exists (u1, p1). split; [|done].
    apply list_elem_of_bind. exists (u2, p2). split; [|done].
    rewrite Hw.
    apply list_elem_of_bind. exists (p1, c1). split; [|done].
    rewrite bool_decide_eq_true_2 by done.
    apply list_elem_of_bind. exists (p2, c2). split; [|done].
    rewrite bool_decide_eq_true_2 by done. left.
Qed.

Lemma policy_rows_sym db u1 u2 p1 p2 c1 c2 :
  (u1, u2, p1, p2, c1, c2) ∈ policy_rows db →
  (u2, u1, p2, p1, c2, c1) ∈ policy_rows db.
Proof.
  rewrite !elem_of_policy_rows_iff. intros (H1 & H2 & Hw & H3 & H4).
  split_and!; try done.
  apply cy_holds_and in Hw
    as [[[[Hneq Htype]%cy_holds_and Hprem]%cy_holds_and Hsum]%cy_holds_and Hpos].
  rewrite !cy_holds_and. split_and!.
  - by apply cy_holds_neq_sym.
  - by apply cy_holds_eq_sym.
  - by apply cy_holds_eq_sym.
  - by apply cy_holds_eq_sym.
  - by rewrite <-(cy_gt_congr _ _ _ Hprem).
Qed.

Lemma policy_groups_complete db u1 u2 p1 p2 c1 c2 :
  (u1, u2, p1, p2, c1, c2) ∈ policy_rows db →
  ∃ claims1 claims2, (u1, u2, p1, p2, claims1, claims2) ∈ policy_groups db.
Proof.
  intros Hr. unfold policy_groups.
  set (rows := filter (λ r : nat * nat * nat * nat * nat * nat,
                         (let '(u1, u2, p1, p2, _, _) := r in (u1, u2, p1, p2))
                         = (u1, u2, p1, p2))
                      (policy_rows db)).
  assert ((u1, u2, p1, p2, c1, c2) ∈ rows) as Hin by (by apply list_elem_of_filter).
  assert (c1 ∈ remove_dups ((λ '(_, _, _, _, c1, _), c1) <$> rows)) as H1
    by (apply elem_of_remove_dups, list_elem_of_fmap;
        by exists (u1, u2, p1, p2, c1, c2)).
  assert (c2 ∈ remove_dups ((λ '(_, _, _, _, _, c2), c2) <$> rows)) as H2
    by (apply elem_of_remove_dups, list_elem_of_fmap;
        by exists (u1, u2, p1, p2, c1, c2)).
  eexists _, _. apply list_elem_of_filter. split.
  - split; apply Nat.neq_0_lt_0; intros Hlen%length_zero_iff_nil;
      [rewrite Hlen in H1|rewrite Hlen in H2]; by eapply elem_of_nil.
  - apply list_elem_of_fmap. exists ((u1, u2, p1, p2), rows). split; [done|].
    apply elem_of_group_by. split; [|done]. by exists (u1, u2, p1, p2, c1, c2).
Qed.

(** X13. Every detector reports a pair in both orders: for each network
    the phone, policy or claim detector returns there is a network of the
    same detector with the two user ids swapped. Deduplication by the sorted
    pair is what brings the two down to one. *)
Theorem detectors_report_both_orders (num_repr : Q → string) (db : database)
    (phone policy claim : list network) :
  _detect_phone_networks db = Ok phone →
  _detect_policy_networks num_repr db = Ok policy →
  _detect_claim_networks num_repr db = Ok claim →
  (∀ n, n ∈ phone → ∃ m, m ∈ phone ∧ users m = reverse (users n)) ∧
  (∀ n, n ∈ policy → ∃ m, m ∈ policy ∧ users m = reverse (users n)) ∧
  (∀ n, n ∈ claim → ∃ m, m ∈ claim ∧ users m = reverse (users n)).
Proof.
  intros Hphone Hpolicy Hclaim.
  rewrite detect_policy_networks_eq in Hpolicy. injection Hpolicy as <-.
  rewrite detect_claim_networks_eq in Hclaim. injection Hclaim as <-.
  split_and!.
  - intros n Hn.
    destruct (proj2 (detect_phone_networks_Ok _ _ Hphone) n Hn)
      as (u1 & u2 & claims1 & claims2 & Hg & Husers).
    apply elem_of_phone_groups in Hg as [(c1 & c2 & Hr) _].
    apply phone_rows_sym, phone_groups_complete in Hr as (claims2' & claims1' & Hg').
    pose proof Hphone as (records & Hq & Hnets)%bind_Ok.
    destruct (mapM_Ok_elem_of_l _ _ _ _ Hq Hg') as (rec & Hrec & Hgr).
    destruct (mapM_Ok_elem_of_l _ _ _ _ Hnets Hrec) as (m & Hm & Hnet).
    cbn [phone_group_record] in Hgr.
    apply bind_Ok in Hgr as (t1 & Ht1 & (t2 & Ht2 & [= <-])%bind_Ok).
    apply phone_network_Ok_amounts in Hnet as (_ & _ & Husers').
    exists m. split; [done|]. by rewrite Husers, Husers'.
  - intros n ([[[[[u1 u2] p1] p2] claims1] claims2] & -> & Hg)%list_elem_of_fmap.
    apply elem_of_policy_groups in Hg as (c1 & c2 & Hr).
    apply policy_rows_sym, policy_groups_complete in Hr as (claims2' & claims1' & Hg').
    exists (policy_network_of num_repr db (u2, u1, p2, p1, claims2', claims1')).
    split; [|done]. apply list_elem_of_fmap. eauto.
  - intros n ([[[[[u1 u2] c1] c2] p1] p2] & -> & Hr)%list_elem_of_fmap.
    apply claim_rows_sym in Hr.
    exists (claim_network_of num_repr db (u2, u1, c2, c1, p2, p1)).
    split; [|done]. apply list_elem_of_fmap. eauto.
Qed.

Lemma twin_detectors :
  _detect_phone_networks twin_database = Ok twin_phone_networks ∧
  _detect_policy_networks sample_repr twin_database = Ok twin_policy_networks ∧
  _detect_claim_networks sample_repr twin_database = Ok twin_claim_networks.
Proof. by vm_compute. Qed.

Lemma detectors_report_both_orders_witness :
  (∀ n, n ∈ twin_phone_networks →
        ∃ m, m ∈ twin_phone_networks ∧ users m = reverse (users n)) ∧
  (∀ n, n ∈ twin_policy_networks →
        ∃ m, m ∈ twin_policy_networks ∧ users m = reverse (users n)) ∧
  (∀ n, n ∈ twin_claim_networks →
        ∃ m, m ∈ twin_claim_networks ∧ users m = reverse (users n)).
Proof.
  apply (detectors_report_both_orders sample_repr twin_database);
    apply twin_detectors.
Defined.

(** ** Visualization data *)

Lemma visualization_node_KeyError db row :
  visualization_node (visualization_record db row) = Raise KeyError.
Proof. by destruct row. Qed.

Lemma filter_none {A} (P : A → Prop) `{∀ x, Decision (P x)} (l : list A) :
  (∀ x, x ∈ l → ¬ P x) → filter P l = [].
Proof.
  induction l as [|x l IH]; intros Hl; [done|].
  rewrite filter_cons, decide_False by (apply Hl; left).
  apply IH. intros y Hy. apply Hl. by right.
Qed.

(** X14. [get_network_visualization_data] cannot return a node. Each row of
    its query is read with [record['claimAmount']], but the query names that
    column [c.claimAmount]: as soon as one filed claim has a fraudScore
    above 0.5 the function raises [KeyError]; when no filed claim has, it
    returns no node and no edge. *)
Theorem visualization_data_key_error (db : database) :
  (∀ u c, (u, c) ∈ filed db →
          cy_holds (cy_gt (prop db c "fraudScore") (VNum 0.5)) = true →
          get_network_visualization_data db = Raise KeyError) ∧
  ((∀ u c, (u, c) ∈ filed db →
           cy_holds (cy_gt (prop db c "fraudScore") (VNum 0.5)) = false) →
   get_network_visualization_data db
   = Ok {| vis_nodes := []; vis_edges := [] |}).
Proof.
  unfold get_network_visualization_data, visualization_query. split.
  - intros u c Hf Hs.
    assert ((u, c) ∈ visualization_rows db) as Hin
      by (by apply list_elem_of_filter).
    destruct (visualization_rows db) as [|row rows]; [by apply elem_of_nil in Hin|].
    cbn [fmap list_fmap mapM]. by rewrite visualization_node_KeyError.
  - intros Hnone.
    assert (visualization_rows db = []) as ->; [|done].
    unfold visualization_rows. apply filter_none.
    intros [u c] Hf. rewrite (Hnone u c Hf). done.
Qed.

Lemma visualization_data_key_error_witness :
  get_network_visualization_data null_amount_database = Raise KeyError.
Proof.
  apply (proj1 (visualization_data_key_error null_amount_database) 0%nat 4%nat).
  - apply (bool_decide_unpack _). by vm_compute.
  - by vm_compute.
Defined.

(** ** Recommendations *)

Lemma high_risk_users_spec items high :
  high_risk_users items = Ok high →
  ∀ user, user ∈ high ↔
          ∃ score x, (user, score) ∈ items ∧
                     record_find score "overall_risk" = Some (VNum x) ∧
                     (0.7 < x)%Q.
Proof.
  revert high. induction items as [|[user0 score0] rest IH]; intros high.
  - intros [= <-] user. split; [by intros ?%elem_of_nil|].
    by intros (? & ? & ?%elem_of_nil & _).
  - cbn [high_risk_users]. unfold record_item.
    destruct (record_find score0 "overall_risk") as [[|s|x0]|] eqn:E; try done.
    cbn [mbind res_bind py_gt].
    destruct (high_risk_users rest) as [users|] eqn:Hrest; [|done].
    specialize (IH users eq_refl). cbn [mbind res_bind].
    intros [= <-] user.
    assert (user ∈ users ∨ (Qltb 0.7 x0 = true ∧ user = user0) ↔
            ∃ score x, (user, score) ∈ (user0, score0) :: rest ∧
                       record_find score "overall_risk" = Some (VNum x) ∧
                       (0.7 < x)%Q) as Hiff.
    { rewrite IH. split.
      - intros [(score & x & Hin & Hx & Hlt)|[Hlt ->]].
        + exists score, x. split; [by right|done].
        + exists score0, x0. split; [left|]. split; [done|by apply Qltb_lt].
      - intros (score & x & [[= -> ->]|Hin]%elem_of_cons & Hx & Hlt).
        + right. split; [|done]. rewrite E in Hx. injection Hx as ->.
          by apply Qltb_lt.
        + left. eauto. }
    rewrite <-Hiff. destruct (Qltb 0.7 x0).
    + rewrite elem_of_cons. split; [intros [->|?]; auto|intros [?|[_ ->]]; auto].
    + split; [auto|]. by intros [?|[? _]].
Qed.

Lemma high_risk_users_total items :
  (∀ user score, (user, score) ∈ items →
                 ∃ x, record_find score "overall_risk" = Some (VNum x)) →
  ∃ high, high_risk_users items = Ok high.
Proof.
  induction items as [|[user0 score0] rest IH]; intros Hnum; [by eexists|].
  cbn [high_risk_users]. unfold record_item.
  destruct (Hnum user0 score0) as [x ->]; [left|].
  destruct IH as [users ->]; [intros u s Hin; apply (Hnum u s); by right|].
  by eexists.
Qed.

(** What [_generate_recommendations] returns once the comprehension has. *)
Lemma generate_recommendations_Ok results recs :
  _generate_recommendations results = Ok recs →
  ∃ high,
    high_risk_users (risk_scores results) = Ok high ∧
    length recs
    = (Nat.b2n (py_nonempty (suspicious_networks results))
       + Nat.b2n (py_nonempty high)
       + Nat.b2n (py_nonempty (rapid_claim_filers (fraud_indicators results))))%nat.
Proof.
  unfold _generate_recommendations. intros (high & Hhigh & [= <-])%bind_Ok.
  exists high. split; [done|].
  destruct (py_nonempty (suspicious_networks results)), (py_nonempty high),
    (py_nonempty (rapid_claim_filers (fraud_indicators results))); done.
Qed.

Lemma py_nonempty_false {A} (l : list A) : py_nonempty l = false ↔ l = [].
Proof. by destruct l. Qed.

(** X15. [_generate_recommendations] writes at most three messages, and
    none at all exactly when there is nothing to report: no suspicious
    network, no rapid claim filer, and no user whose [overall_risk] is above
    0.7 (a risk of exactly 0.7 does not count). *)
Theorem recommendations_empty_iff (results : results) (recs : list string) :
  _generate_recommendations results = Ok recs →
  (length recs ≤ 3)%nat ∧
  (recs = [] ↔
   suspicious_networks results = [] ∧
   rapid_claim_filers (fraud_indicators results) = [] ∧
   ∀ user score x,
     (user, score) ∈ risk_scores results →
     record_find score "overall_risk" = Some (VNum x) → (x <= 0.7)%Q).
Proof.
  intros (high & Hhigh & Hlen)%generate_recommendations_Ok.
  pose proof (high_risk_users_spec _ _ Hhigh) as Hspec.
  assert (high = [] ↔
          ∀ user score x,
            (user, score) ∈ risk_scores results →
            record_find score "overall_risk" = Some (VNum x) → (x <= 0.7)%Q)
    as Hnone.
  { split.
    - intros -> user score x Hin Hx. apply Qnot_lt_le. intros Hlt.
      eapply elem_of_nil, Hspec. eauto.
    - intros Hle. destruct high as [|user high]; [done|].
      destruct (proj1 (Hspec user)) as (score & x & Hin & Hx & Hlt); [left|].
      exfalso. eapply Qlt_not_le; [exact Hlt|]. eauto. }
  rewrite <-(length_zero_iff_nil recs), Hlen, <-Hnone, <-!py_nonempty_false.
  destruct (py_nonempty (suspicious_networks results)), (py_nonempty high),
    (py_nonempty (rapid_claim_filers (fraud_indicators results)));
    cbn; split; try lia; intuition (try discriminate; try lia).
Qed.

Lemma recommendations_empty_iff_witness :
  (length ([] : list string) ≤ 3)%nat ∧
  (([] : list string) = [] ↔
   suspicious_networks (Results [] (Indicators [] [] [] [] []) six_scores []) = [] ∧
   rapid_claim_filers
     (fraud_indicators (Results [] (Indicators [] [] [] [] []) six_scores [])) = [] ∧
   ∀ user score x,
     (user, score)
     ∈ risk_scores (Results [] (Indicators [] [] [] [] []) six_scores []) →
     record_find score "overall_risk" = Some (VNum x) → (x <= 0.7)%Q).
Proof.
  apply (recommendations_empty_iff
           (Results [] (Indicators [] [] [] [] []) six_scores []) []).
  by vm_compute.
Defined.
